(** * WhatsApp bulk sender: the campaign dispatch engine of [server.js]

    A shallow embedding of the campaign engine of [src/server.js]: the
    three SQLite tables it works on, the string primitives it calls
    ([String.prototype.replace] with a global regular expression,
    [String.prototype.includes]), the request handlers for campaigns,
    [sendBulkMessages] and the cron job, and of the two places of the
    page script that guard the requests.

    Node runs one callback at a time, so the server is a transition
    system over a [World]: a request handler is one transition, an
    iteration of the loop of [sendBulkMessages] is one transition, and
    the transitions of several passes interleave with each other and
    with the requests.  The environment decides, for each attempt,
    whether the transport rejects.

    What the model leaves out: SQL statements do not fail (the [err]
    branches answer 500 and change nothing); [contacts] in a request is
    a JSON array of integer ids; [io.emit] and [delay] do not throw; time
    passes between two transitions only (the delay between two messages
    is a transition of its own), and the one-step pass
    [sendBulkMessages] takes no time; the message of a [TypeError] is
    the one of V8. *)

From Stdlib Require Import List ZArith Bool Lia String Ascii Permutation.
Import ListNotations.

Local Open Scope string_scope.
Local Open Scope Z_scope.

(* ================================================================== *)
(** * JavaScript strings *)
(* ================================================================== *)

(** Strings are sequences of characters; the patterns of the program are
    ASCII, so matching on bytes and on UTF-16 code units agree. *)
Module JS.

(** [ToString] of a column value that SQLite may return as [null]: this
    is what [replace] does to a replacement value that is not callable. *)
Definition toString (v : option string) : string :=
  match v with
  | Some s => s
  | None => "null"
  end.

(** Truthiness of a column value: [null] and the empty string are falsy. *)
Definition truthy (v : option string) : bool :=
  match v with
  | Some EmptyString => false
  | Some _ => true
  | None => false
  end.

Definition isDigit (c : ascii) : bool :=
  let n := nat_of_ascii c in (48 <=? n)%nat && (n <=? 57)%nat.

(** [s.includes(sub)]: some suffix of [s] starts with [sub]. *)
Fixpoint includes (sub s : string) : bool :=
  prefix sub s ||
  match s with
  | EmptyString => false
  | String _ s' => includes sub s'
  end.

(** [s.replace(/\D/g, '')]: every character that is not a decimal digit is
    a match, and the replacement template [''] expands to nothing. *)
Fixpoint removeNonDigits (s : string) : string :=
  match s with
  | EmptyString => EmptyString
  | String c s' =>
      if isDigit c then String c (removeNonDigits s') else removeNonDigits s'
  end.

(** [GetSubstitution] of ECMAScript for a regular expression without
    capture groups: in the replacement template [$$] stands for a dollar,
    [$&] for the matched text, [$`] for the text before the match and [$']
    for the text after it; every other character, also a dollar followed
    by digits or by [<], is copied. *)
Fixpoint getSubstitution (matched before after template : string) : string :=
  match template with
  | EmptyString => EmptyString
  | String c rest =>
      if Ascii.eqb c "$" then
        match rest with
        | String d rest' =>
            if Ascii.eqb d "$" then
              String "$" (getSubstitution matched before after rest')
            else if Ascii.eqb d "&" then
              matched ++ getSubstitution matched before after rest'
            else if Ascii.eqb d "`" then
              before ++ getSubstitution matched before after rest'
            else if Ascii.eqb d "'" then
              after ++ getSubstitution matched before after rest'
            else String c (getSubstitution matched before after rest)
        | EmptyString => String c EmptyString
        end
      else String c (getSubstitution matched before after rest)
  end.

(** [drop n s]: [s] without its first [n] characters. *)
Fixpoint drop (n : nat) (s : string) : string :=
  match n, s with
  | O, _ => s
  | S n', String _ s' => drop n' s'
  | S _, EmptyString => EmptyString
  end.

(** The scan of [s.replace(/pat/g, template)] for a literal, non-empty
    pattern: matches are searched from left to right in the original
    string and do not overlap.  [before] is the part of the original
    string already passed, [skip] counts the characters of the current
    match still to be passed. *)
Fixpoint replaceScan (pat template before : string) (skip : nat) (s : string)
  : string :=
  match s with
  | EmptyString => EmptyString
  | String c s' =>
      match skip with
      | S k => replaceScan pat template (before ++ String c EmptyString) k s'
      | O =>
          if prefix pat s then
            getSubstitution pat before (drop (String.length pat) s) template
            ++ replaceScan pat template (before ++ String c EmptyString)
                 (String.length pat - 1) s'
          else
            String c
              (replaceScan pat template (before ++ String c EmptyString) O s')
      end
  end.

(** [s.replace(/pat/g, replaceValue)] *)
Definition replaceAll (pat : string) (replaceValue : option string)
    (s : string) : string :=
  replaceScan pat (toString replaceValue) EmptyString O s.

End JS.

(* ================================================================== *)
(** * The tables *)
(* ================================================================== *)

Inductive CampaignStatus := draft | scheduled | running | completed | paused.

Inductive MessageStatus := pending | sent | failed.

Definition CampaignStatus_eqb (a b : CampaignStatus) : bool :=
  match a, b with
  | draft, draft | scheduled, scheduled | running, running
  | completed, completed | paused, paused => true
  | _, _ => false
  end.

Definition MessageStatus_eqb (a b : MessageStatus) : bool :=
  match a, b with
  | pending, pending | sent, sent | failed, failed => true
  | _, _ => false
  end.

(** A row of [contacts]; every text column may hold [NULL].  The columns
    [tags], [custom_fields] and [created_at] are not read by the engine
    and are left out. *)
Record Contact := mkContact {
  c_id : Z;
  c_name : option string;
  c_phone : option string;
  c_email : option string
}.

(** A row of [campaigns], without [created_at]; times are seconds on the
    clock of the database, and a [scheduled_at] that is present is a time
    that [datetime] can read. *)
Record Campaign := mkCampaign {
  k_id : Z;
  k_name : string;
  k_message : string;
  k_media_url : option string;
  k_media_type : option string;
  k_status : CampaignStatus;
  k_scheduled_at : option Z;
  k_completed_at : option Z
}.

(** A row of [messages], without [delivered_at] and [read_at], which no
    statement of the server writes. *)
Record Message := mkMessage {
  m_id : Z;
  m_campaign_id : Z;
  m_contact_id : Z;
  m_phone : option string;
  m_message : string;
  m_status : MessageStatus;
  m_sent_at : option Z;
  m_error : option string
}.

(* ================================================================== *)
(** * Recipient resolution: the substitution of [POST /api/campaigns] *)
(* ================================================================== *)

(** [message.replace(/\{name\}/g, contact.name)
           .replace(/\{phone\}/g, contact.phone)
           .replace(/\{email\}/g, contact.email)] *)
Definition personalize (message : string) (contact : Contact) : string :=
  JS.replaceAll "{email}" (c_email contact)
    (JS.replaceAll "{phone}" (c_phone contact)
       (JS.replaceAll "{name}" (c_name contact) message)).

(** The address computed at the head of an attempt:
    [let formattedPhone = phone.replace(/\D/g, '');
     if (!formattedPhone.includes('@c.us')) formattedPhone += '@c.us'] *)
Definition formatPhone (phone : string) : string :=
  let formattedPhone := JS.removeNonDigits phone in
  if negb (JS.includes "@c.us" formattedPhone)
  then formattedPhone ++ "@c.us"
  else formattedPhone.

(* ================================================================== *)
(** * The database and the running server *)
(* ================================================================== *)

(** The three tables in rowid order, and the two [AUTOINCREMENT] counters
    of [sqlite_sequence]: the largest id ever given out in each table, so
    that a new row gets the counter plus one. *)
Record Database := mkDatabase {
  contacts : list Contact;
  campaigns : list Campaign;
  messages : list Message;
  campaign_seq : Z;
  message_seq : Z
}.

(** [resolve({ sent, failed, total: messages.length })] *)
Record DispatchResult := mkResult {
  r_sent : nat;
  r_failed : nat;
  r_total : nat
}.

(** A call [client.sendMessage(to, body)] or
    [client.sendMessage(to, media, { caption: body })] that was made. *)
Record SendCall := mkSend {
  s_to : string;
  s_media : option string;
  s_body : string
}.

(** [io.emit('message_sent', { campaignId, messageId, phone, sent, total })] *)
Record SentEvent := mkSentEvent {
  e_campaignId : Z;
  e_messageId : Z;
  e_phone : option string;
  e_sent : nat;
  e_total : nat
}.

(** What the transport does in one attempt: whether
    [MessageMedia.fromUrl] and [client.sendMessage] reject, and with which
    [error.message]. *)
Record Channel := mkChannel {
  fromUrl_fails : option string;
  sendMessage_fails : option string
}.

Definition delivers : Channel := mkChannel None None.

(** An activation of [sendBulkMessages] that is suspended at an [await]:
    the rows of [messages] the loop has not reached yet, the counters, and,
    when the cron job called it, the campaigns the job starts next. *)
Record Task := mkTask {
  t_campaign : Z;
  t_messages : list Message;
  t_total : nat;
  t_sent : nat;
  t_failed : nat;
  t_then : list Z
}.

(** The server between two callbacks: the database, the flag
    [isClientReady], the clock, the suspended passes (a slot is [None]
    once its pass has resolved), and what the server has done so far:
    the calls of the transport, the emitted events, and the results the
    passes resolved with, newest first. *)
Record World := mkWorld {
  db : Database;
  isClientReady : bool;
  now : Z;
  tasks : list (option Task);
  sendLog : list SendCall;
  emitted : list SentEvent;
  results : list (Z * DispatchResult)
}.

Definition with_campaigns (ks : list Campaign) (d : Database) : Database :=
  mkDatabase (contacts d) ks (messages d) (campaign_seq d) (message_seq d).

Definition with_messages (ms : list Message) (d : Database) : Database :=
  mkDatabase (contacts d) (campaigns d) ms (campaign_seq d) (message_seq d).

Definition with_db (d : Database) (w : World) : World :=
  mkWorld d (isClientReady w) (now w) (tasks w) (sendLog w) (emitted w)
    (results w).

Definition with_tasks (ts : list (option Task)) (w : World) : World :=
  mkWorld (db w) (isClientReady w) (now w) ts (sendLog w) (emitted w)
    (results w).

Definition with_ready (b : bool) (w : World) : World :=
  mkWorld (db w) b (now w) (tasks w) (sendLog w) (emitted w) (results w).

Definition with_now (t : Z) (w : World) : World :=
  mkWorld (db w) (isClientReady w) t (tasks w) (sendLog w) (emitted w)
    (results w).

(** ** SQL statements of the engine *)

(** [SELECT * FROM campaigns WHERE id = ?] through [db.get]: the first row. *)
Definition findCampaign (id : Z) (d : Database) : option Campaign :=
  find (fun k => k_id k =? id) (campaigns d).

Definition setStatus (st : CampaignStatus) (k : Campaign) : Campaign :=
  mkCampaign (k_id k) (k_name k) (k_message k) (k_media_url k)
    (k_media_type k) st (k_scheduled_at k) (k_completed_at k).

Definition completeRow (t : Z) (k : Campaign) : Campaign :=
  mkCampaign (k_id k) (k_name k) (k_message k) (k_media_url k)
    (k_media_type k) completed (k_scheduled_at k) (Some t).

(** [UPDATE campaigns SET status = st WHERE id = ?] *)
Definition updateStatus (st : CampaignStatus) (id : Z) (d : Database)
  : Database :=
  with_campaigns
    (map (fun k => if k_id k =? id then setStatus st k else k) (campaigns d))
    d.

(** [UPDATE campaigns SET status = 'completed',
     completed_at = CURRENT_TIMESTAMP WHERE id = ?] *)
Definition updateCompleted (t : Z) (id : Z) (d : Database) : Database :=
  with_campaigns
    (map (fun k => if k_id k =? id then completeRow t k else k) (campaigns d))
    d.

Definition sentRow (t : Z) (m : Message) : Message :=
  mkMessage (m_id m) (m_campaign_id m) (m_contact_id m) (m_phone m)
    (m_message m) sent (Some t) (m_error m).

Definition failedRow (e : string) (m : Message) : Message :=
  mkMessage (m_id m) (m_campaign_id m) (m_contact_id m) (m_phone m)
    (m_message m) failed (m_sent_at m) (Some e).

(** [UPDATE messages SET status = 'sent', sent_at = CURRENT_TIMESTAMP
     WHERE id = ?] *)
Definition updateSent (t : Z) (id : Z) (d : Database) : Database :=
  with_messages
    (map (fun m => if m_id m =? id then sentRow t m else m) (messages d)) d.

(** [UPDATE messages SET status = 'failed', error = ? WHERE id = ?] *)
Definition updateFailed (e : string) (id : Z) (d : Database) : Database :=
  with_messages
    (map (fun m => if m_id m =? id then failedRow e m else m) (messages d)) d.

Definition isPendingOf (campaignId : Z) (m : Message) : bool :=
  (m_campaign_id m =? campaignId) && MessageStatus_eqb (m_status m) pending.

(** [SELECT m.*, c.name FROM messages m LEFT JOIN contacts c
     ON m.contact_id = c.id WHERE m.campaign_id = ? AND m.status = 'pending'];
    the joined name is not read by the loop and is left out. *)
Definition selectPending (campaignId : Z) (d : Database) : list Message :=
  filter (isPendingOf campaignId) (messages d).

Definition isDue (t : Z) (k : Campaign) : bool :=
  CampaignStatus_eqb (k_status k) scheduled &&
  match k_scheduled_at k with
  | Some at_ => at_ <=? t
  | None => false
  end.

(** [SELECT * FROM campaigns WHERE status = 'scheduled'
     AND datetime(scheduled_at) <= datetime('now')] *)
Definition selectDue (t : Z) (d : Database) : list Campaign :=
  filter (isDue t) (campaigns d).

(* ================================================================== *)
(** * [sendBulkMessages] *)
(* ================================================================== *)

(** The [try] block up to the call of [client.sendMessage]: the call the
    iteration is about to make, or the error thrown before any call. *)
Inductive Prepared :=
| Calls (call : SendCall)
| Fails (message : string).

Definition prepareCall (campaignId : Z) (msg : Message) (ch : Channel)
    (w : World) : Prepared :=
  if negb (isClientReady w) then Fails "WhatsApp client not ready"
  else
    match m_phone msg with
    | None => Fails "Cannot read properties of null (reading 'replace')"
    | Some phone =>
        let formattedPhone := formatPhone phone in
        match findCampaign campaignId (db w) with
        | None =>
            Fails "Cannot read properties of undefined (reading 'media_url')"
        | Some campaign =>
            if JS.truthy (k_media_url campaign) then
              match fromUrl_fails ch with
              | Some e => Fails e
              | None =>
                  Calls (mkSend formattedPhone (k_media_url campaign)
                           (m_message msg))
              end
            else Calls (mkSend formattedPhone None (m_message msg))
        end
    end.

(** The outcome of the [try] block of one loop iteration. *)
Inductive Attempted :=
| Sent (call : SendCall)
| Thrown (message : string).

(** The [try] block with the call of [client.sendMessage], which the
    transport accepts or rejects. *)
Definition trySend (campaignId : Z) (msg : Message) (ch : Channel) (w : World)
  : Attempted :=
  match prepareCall campaignId msg ch w with
  | Fails e => Thrown e
  | Calls call =>
      match sendMessage_fails ch with
      | Some e => Thrown e
      | None => Sent call
      end
  end.

(** One iteration of [for (const msg of messages)]: the attempt, the
    [UPDATE] of the row with the id of [msg], and the counters. *)
Definition attemptMessage (campaignId : Z) (total : nat) (msg : Message)
    (ch : Channel) (counters : nat * nat) (w : World) : (nat * nat) * World :=
  let '(sent_, failed_) := counters in
  match trySend campaignId msg ch w with
  | Sent call =>
      let w1 := with_db (updateSent (now w) (m_id msg) (db w)) w in
      ((S sent_, failed_),
       mkWorld (db w1) (isClientReady w1) (now w1) (tasks w1)
         (call :: sendLog w1)
         (mkSentEvent campaignId (m_id msg) (m_phone msg) (S sent_) total
            :: emitted w1)
         (results w1))
  | Thrown e =>
      ((sent_, S failed_), with_db (updateFailed e (m_id msg) (db w)) w)
  end.

(** The loop over the fetched rows; [chs] gives the behaviour of the
    transport in each attempt (it delivers when the list runs out).  The
    clock of the [World] stands still in this function: the times it
    writes are those of a pass that takes no time.  The time that passes
    in [await delay(...)] between two messages is the transition
    [Elapse] between two transitions [Proceed] of [step] below, where
    each row gets the time of its own attempt. *)
Fixpoint sendLoop (campaignId : Z) (total : nat) (msgs : list Message)
    (chs : list Channel) (counters : nat * nat) (w : World)
  : (nat * nat) * World :=
  match msgs with
  | [] => (counters, w)
  | msg :: rest =>
      let '(counters', w') :=
        attemptMessage campaignId total msg (hd delivers chs) counters w in
      sendLoop campaignId total rest (tl chs) counters' w'
  end.

(** The code after the loop: the campaign is completed and the promise
    resolved. *)
Definition completePass (campaignId : Z) (total : nat) (counters : nat * nat)
    (w : World) : DispatchResult * World :=
  (mkResult (fst counters) (snd counters) total,
   with_db (updateCompleted (now w) campaignId (db w)) w).

(** [sendBulkMessages(campaignId)] when no other callback runs while the
    pass is suspended and the clock stands still. *)
Definition sendBulkMessages (campaignId : Z) (chs : list Channel) (w : World)
  : DispatchResult * World :=
  let msgs := selectPending campaignId (db w) in
  let '(counters, w') :=
    sendLoop campaignId (List.length msgs) msgs chs (O, O) w in
  completePass campaignId (List.length msgs) counters w'.

(* ================================================================== *)
(** * Request handlers and the cron job *)
(* ================================================================== *)

Inductive Response :=
| RStarted            (* 200 { success: true, message: 'Campaign started' } *)
| RSuccess            (* 200 { success: true } *)
| RCreated (id : Z)   (* 200 { id, success: true } *)
| RKey (jid : string) (* 200 { key: { remoteJid, fromMe: true, id }, ... } *)
| RError (e : string) (* 500 { error } *).

(** The body of [POST /api/campaigns]: [contacts] after [JSON.parse], the
    uploaded file as its stored name and MIME type. *)
Record CampaignRequest := mkRequest {
  q_name : string;
  q_message : string;
  q_contacts : list Z;
  q_scheduled_at : option Z;
  q_file : option (string * string)
}.

(** [rows.forEach(contact => stmt.run(campaignId, contact.id, contact.phone,
    personalizedMessage))]: the rows get the next ids of the table. *)
Fixpoint insertMessages (campaignId : Z) (message : string) (seq : Z)
    (rows : list Contact) : list Message :=
  match rows with
  | [] => []
  | contact :: rest =>
      mkMessage (seq + 1) campaignId (c_id contact) (c_phone contact)
        (personalize message contact) pending None None
      :: insertMessages campaignId message (seq + 1) rest
  end.

(** [SELECT * FROM contacts WHERE id IN (...)]; an empty list selects no
    row. *)
Definition selectContacts (ids : list Z) (d : Database) : list Contact :=
  filter (fun c => existsb (Z.eqb (c_id c)) ids) (contacts d).

(** [app.post('/api/campaigns')] *)
Definition createCampaign (req : CampaignRequest) (w : World)
  : Response * World :=
  let d := db w in
  let media_url := option_map (fun f => "/uploads/" ++ fst f) (q_file req) in
  let media_type := option_map snd (q_file req) in
  let campaignId := campaign_seq d + 1 in
  let row :=
    mkCampaign campaignId (q_name req) (q_message req) media_url media_type
      (match q_scheduled_at req with Some _ => scheduled | None => draft end)
      (q_scheduled_at req) None in
  let rows := selectContacts (q_contacts req) d in
  let new := insertMessages campaignId (q_message req) (message_seq d) rows in
  (RCreated campaignId,
   with_db
     (mkDatabase (contacts d) (campaigns d ++ [row]) (messages d ++ new)
        campaignId (message_seq d + Z.of_nat (List.length rows)))
     w).

(** A call [sendBulkMessages(campaignId)] up to its first [await], after
    the [UPDATE] that precedes it on both paths. *)
Definition startPass (campaignId : Z) (next : list Z) (w : World)
  : Task * World :=
  let w1 := with_db (updateStatus running campaignId (db w)) w in
  let msgs := selectPending campaignId (db w1) in
  (mkTask campaignId msgs (List.length msgs) O O next, w1).

(** [app.post('/api/campaigns/:id/start')] *)
Definition startCampaign (id : Z) (w : World) : Response * World :=
  let '(t, w1) := startPass id [] w in
  (RStarted, with_tasks (tasks w1 ++ [Some t]) w1).

(** [app.post('/api/campaigns/:id/pause')] *)
Definition pauseCampaign (id : Z) (w : World) : Response * World :=
  (RSuccess, with_db (updateStatus paused id (db w)) w).

(** [app.delete('/api/campaigns/:id')] *)
Definition deleteCampaign (id : Z) (w : World) : Response * World :=
  let d := db w in
  (RSuccess,
   with_db
     (mkDatabase (contacts d)
        (filter (fun k => negb (k_id k =? id)) (campaigns d))
        (filter (fun m => negb (m_campaign_id m =? id)) (messages d))
        (campaign_seq d) (message_seq d))
     w).

(** [cron.schedule('* * * * *', ...)]: the due campaigns are selected once;
    the first is started at once, each next one when the pass before it
    has resolved. *)
Definition cronTick (w : World) : World :=
  match map k_id (selectDue (now w) (db w)) with
  | [] => w
  | id :: next =>
      let '(t, w1) := startPass id next w in
      with_tasks (tasks w1 ++ [Some t]) w1
  end.

(** A suspended pass goes on: the next iteration of its loop, or, when the
    loop is over, the completion; the cron job then starts its next
    campaign. *)
Definition proceedTask (ch : Channel) (t : Task) (w : World)
  : option Task * World :=
  match t_messages t with
  | msg :: rest =>
      let '((sent_, failed_), w') :=
        attemptMessage (t_campaign t) (t_total t) msg ch
          (t_sent t, t_failed t) w in
      (Some (mkTask (t_campaign t) rest (t_total t) sent_ failed_ (t_then t)),
       w')
  | [] =>
      let '(res, w') :=
        completePass (t_campaign t) (t_total t) (t_sent t, t_failed t) w in
      let w'' :=
        mkWorld (db w') (isClientReady w') (now w') (tasks w') (sendLog w')
          (emitted w') ((t_campaign t, res) :: results w') in
      match t_then t with
      | [] => (None, w'')
      | id :: next =>
          let '(t', w3) := startPass id next w'' in (Some t', w3)
      end
  end.

Fixpoint setNth {A} (n : nat) (x : A) (l : list A) : list A :=
  match l, n with
  | [], _ => []
  | _ :: l', O => x :: l'
  | y :: l', S n' => y :: setNth n' x l'
  end.

(** [app.post('/api/evolution/message/sendText/:instance')], which
    computes the address with the same two lines as the loop. *)
Definition evolutionSendText (number : option string) (text : string)
    (ch : Channel) (w : World) : Response * World :=
  if negb (isClientReady w) then (RError "Instance not ready", w)
  else
    match number with
    | None =>
        (RError "Cannot read properties of undefined (reading 'replace')", w)
    | Some phone =>
        let formattedPhone := formatPhone phone in
        match sendMessage_fails ch with
        | Some e => (RError e, w)
        | None =>
            (RKey formattedPhone,
             mkWorld (db w) (isClientReady w) (now w) (tasks w)
               (mkSend formattedPhone None text :: sendLog w) (emitted w)
               (results w))
        end
    end.

(** What can happen to the server. *)
Inductive Event :=
| Create (req : CampaignRequest)
| Start (id : Z)
| Pause (id : Z)
| Delete (id : Z)
| Cron
| Proceed (task : nat) (ch : Channel)
| Ready
| Disconnected
| Elapse (seconds : Z).

Definition step (w : World) (e : Event) : World :=
  match e with
  | Create req => snd (createCampaign req w)
  | Start id => snd (startCampaign id w)
  | Pause id => snd (pauseCampaign id w)
  | Delete id => snd (deleteCampaign id w)
  | Cron => cronTick w
  | Proceed i ch =>
      match nth_error (tasks w) i with
      | Some (Some t) =>
          let '(t', w') := proceedTask ch t w in
          with_tasks (setNth i t' (tasks w')) w'
      | _ => w
      end
  | Ready => with_ready true w
  | Disconnected => with_ready false w
  | Elapse s => with_now (now w + Z.max 0 s) w
  end.

Definition run (w : World) (es : list Event) : World := fold_left step es w.

(* ================================================================== *)
(** * The page script: what the form and the campaign list allow *)
(* ================================================================== *)

Inductive FormResult :=
| Alerted (text : string)
| Posted (r : Response).

(** [handleCreateCampaign]: no request is sent for an empty selection. *)
Definition handleCreateCampaign (req : CampaignRequest) (w : World)
  : FormResult * World :=
  if (List.length (q_contacts req) =? 0)%nat
  then (Alerted "Please select at least one contact", w)
  else let '(r, w') := createCampaign req w in (Posted r, w').

(** [renderCampaigns]: the rows that get a Start button. *)
Definition startOffered (st : CampaignStatus) : bool :=
  CampaignStatus_eqb st draft || CampaignStatus_eqb st scheduled.

(* ================================================================== *)
(** * Auxiliary notions for the statements *)
(* ================================================================== *)

Fixpoint allDigits (s : string) : bool :=
  match s with
  | EmptyString => true
  | String c s' => JS.isDigit c && allDigits s'
  end.

Definition notReady : string := "WhatsApp client not ready".

Definition failIds (ids : list Z) (m : Message) : Message :=
  if existsb (Z.eqb (m_id m)) ids then failedRow notReady m else m.

(** A template seen as text with holes: the text between the
    placeholders, and the placeholders of the three fields. *)
Inductive Field := FName | FPhone | FEmail.

Inductive Piece :=
| Text (s : string)
| Hole (f : Field).

Definition Field_eqb (f g : Field) : bool :=
  match f, g with
  | FName, FName | FPhone, FPhone | FEmail, FEmail => true
  | _, _ => false
  end.

Definition placeholder (f : Field) : string :=
  match f with
  | FName => "{name}"
  | FPhone => "{phone}"
  | FEmail => "{email}"
  end.

Definition fieldOf (f : Field) (c : Contact) : option string :=
  match f with
  | FName => c_name c
  | FPhone => c_phone c
  | FEmail => c_email c
  end.

Fixpoint render (ps : list Piece) : string :=
  match ps with
  | [] => EmptyString
  | Text s :: rest => s ++ render rest
  | Hole f :: rest => placeholder f ++ render rest
  end.

(** The template with every hole filled with the contact's value. *)
Fixpoint filled (c : Contact) (ps : list Piece) : string :=
  match ps with
  | [] => EmptyString
  | Text s :: rest => s ++ filled c rest
  | Hole f :: rest => JS.toString (fieldOf f c) ++ filled c rest
  end.

(** [lacks c s]: the character [c] does not occur in [s]. *)
Fixpoint lacks (c : ascii) (s : string) : bool :=
  match s with
  | EmptyString => true
  | String d s' => negb (Ascii.eqb d c) && lacks c s'
  end.

(** Every open brace of the template belongs to a placeholder. *)
Definition bracesInHoles (ps : list Piece) : bool :=
  forallb (fun p => match p with Text s => lacks "{" s | Hole _ => true end)
    ps.

(** A value that, when it is present, has no open brace and no dollar
    sign. *)
Definition plainValue (v : option string) : bool :=
  match v with
  | Some s => lacks "{" s && lacks "$" s
  | None => true
  end.

Definition plainContact (c : Contact) : bool :=
  plainValue (c_name c) && plainValue (c_phone c) && plainValue (c_email c).

Definition fill1 (f : Field) (v : string) (p : Piece) : Piece :=
  match p with
  | Hole g => if Field_eqb f g then Text v else p
  | Text _ => p
  end.

(** ** Passes that do not overlap *)

(** The ids of the rows a suspended pass has not reached yet. *)
Definition queueIds (slot : option Task) : list Z :=
  match slot with
  | Some t => map m_id (t_messages t)
  | None => []
  end.

Definition queuedOf (slots : list (option Task)) : list Z :=
  flat_map queueIds slots.

(** [busy id slots]: a suspended pass over campaign [id] has rows left. *)
Definition busy (id : Z) (slots : list (option Task)) : bool :=
  existsb
    (fun slot =>
       match slot with
       | Some t =>
           (t_campaign t =? id) &&
           match t_messages t with [] => false | _ :: _ => true end
       | None => false
       end)
    slots.

(** The campaign on which an event begins a pass, if it begins one. *)
Definition begins (w : World) (e : Event) : list Z :=
  match e with
  | Start id => [id]
  | Cron => firstn 1 (map k_id (selectDue (now w) (db w)))
  | Proceed i _ =>
      match nth_error (tasks w) i with
      | Some (Some t) =>
          match t_messages t with
          | [] => firstn 1 (t_then t)
          | _ :: _ => []
          end
      | _ => []
      end
  | _ => []
  end.

(** The event begins no pass over a campaign on which a pass is busy. *)
Definition exclusive (w : World) (e : Event) : bool :=
  forallb (fun id => negb (busy id (tasks w))) (begins w e).

Fixpoint exclusiveRun (w : World) (es : list Event) : bool :=
  match es with
  | [] => true
  | e :: rest => exclusive w e && exclusiveRun (step w e) rest
  end.

(** No suspended pass over campaign [id] has rows left. *)
Definition idle (id : Z) (slots : list (option Task)) : Prop :=
  forall t, In (Some t) slots -> t_campaign t = id -> t_messages t = [].

(** The message table and the suspended passes fit together: message ids
    are distinct and were given out by the counter, no row is awaited by
    two passes or twice by one, and a row that a pass still awaits is
    pending and belongs to the campaign of the pass. *)
Definition consistent (ms : list Message) (seq : Z)
    (slots : list (option Task)) : Prop :=
  NoDup (map m_id ms) /\
  (forall m, In m ms -> m_id m <= seq) /\
  NoDup (queuedOf slots) /\
  (forall t q, In (Some t) slots -> In q (t_messages t) ->
     m_id q <= seq /\
     forall m, In m ms -> m_id m = m_id q ->
               m_status m = pending /\ m_campaign_id m = t_campaign t).

Definition Consistent (w : World) : Prop :=
  consistent (messages (db w)) (message_seq (db w)) (tasks w).

(** A status stays as it is unless it was pending. *)
Definition settles (before after : MessageStatus) : Prop :=
  after = before \/ before = pending.

(** Every row of the later table is a row of the earlier one whose status
    has settled, or is a row created since. *)
Definition descends (ms : list Message) (seq : Z) (ms' : list Message)
    (seq' : Z) : Prop :=
  seq <= seq' /\
  forall m', In m' ms' ->
    (exists m, In m ms /\ m_id m = m_id m' /\
               settles (m_status m) (m_status m')) \/
    seq < m_id m'.

(* ================================================================== *)
(** * Sample worlds *)
(* ================================================================== *)

(** A campaign with two pending messages while the client is not ready. *)
Definition sampleOffline : World :=
  mkWorld
    (mkDatabase []
       [mkCampaign 1 "greet" "Hi" None None running None None]
       [mkMessage 1 1 1 (Some "+1555") "Hi" pending None None;
        mkMessage 2 1 2 (Some "+1556") "Hi" pending None None]
       1 2)
    false 100 [] [] [] [].


Definition ana : Contact :=
  mkContact 1 (Some "Ana") (Some "+1555") (Some "ana@example.org").

Definition leo : Contact :=
  mkContact 2 (Some "Leo") (Some "+1556") (Some "leo@example.org").

(** A contact stored without an email address. *)
Definition eva : Contact := mkContact 3 (Some "Eva") (Some "+1557") None.

(** A server with three contacts, no campaign yet, the client ready. *)
Definition sampleWorld : World :=
  mkWorld (mkDatabase [ana; leo; eva] [] [] 0 0) true 100 [] [] [] [].

Definition greeting : CampaignRequest :=
  mkRequest "greet" "Hi {name}, your number is {phone}" [1; 2] None None.

Definition greetingAll : CampaignRequest :=
  mkRequest "greet" "Hi {name}, your number is {phone}" [1; 2; 3] None None.

(** The same campaign, to be started by the cron job at time 50. *)
Definition greetingAt50 : CampaignRequest :=
  mkRequest "greet" "Hi {name}, your number is {phone}" [1; 2] (Some 50) None.

Definition nobody : CampaignRequest :=
  mkRequest "empty" "Hi {name}" [] None None.

Definition statusOf (id : Z) (w : World) : option CampaignStatus :=
  option_map k_status (findCampaign id (db w)).

Definition messageStatuses (w : World) : list (Z * MessageStatus) :=
  map (fun m => (m_id m, m_status m)) (messages (db w)).

(** A response that reports a failure to the caller. *)
Definition rejected (r : Response) : bool :=
  match r with
  | RError _ => true
  | _ => false
  end.

(** The campaign [greeting] started, its first message delivered. *)
Definition sampleRunning : World :=
  run sampleWorld [Create greeting; Start 1; Proceed 0 delivers].

(** The campaign [greetingAt50] claimed by the cron job at time 100. *)
Definition sampleClaimed : World :=
  run sampleWorld [Create greetingAt50; Cron].

(** The campaign [greetingAll] started and paused after its first
    message. *)
Definition samplePaused : World :=
  run sampleWorld [Create greetingAll; Start 1; Proceed 0 delivers; Pause 1].

(** A contact whose stored name is the text of a placeholder. *)
Definition odd : Contact :=
  mkContact 1 (Some "{name}") (Some "+1558") (Some "odd@example.org").

(** A contact whose stored name is the word between the braces. *)
Definition named : Contact :=
  mkContact 2 (Some "name") (Some "+1559") (Some "named@example.org").

(** A contact whose stored name is a replacement pattern of [replace]. *)
Definition dollar : Contact :=
  mkContact 3 (Some "$&") (Some "+1560") (Some "dollar@example.org").

Definition sampleOdd : World :=
  mkWorld (mkDatabase [odd; named; dollar] [] [] 0 0) true 100 [] [] [] [].

Definition hello : CampaignRequest :=
  mkRequest "hello" "Hi {name}" [1] None None.

Definition helloDollar : CampaignRequest :=
  mkRequest "hello" "Hi {name}" [3] None None.

(** A template that wraps the placeholder in a second pair of braces. *)
Definition doubled : CampaignRequest :=
  mkRequest "doubled" "Hi {{name}}" [2] None None.

(** A transport that rejects [sendMessage]. *)
Definition rejects : Channel := mkChannel None (Some "Evaluation failed").

(** The campaign [greeting] started twice: the second request arrives
    while the first pass waits after its first message. *)
Definition startedTwice : list Event :=
  [Create greeting; Start 1; Proceed 0 delivers; Start 1; Proceed 0 delivers].

(** The campaign [greeting] started, one message delivered ... *)
Definition firstHalf : list Event :=
  [Create greeting; Start 1; Proceed 0 delivers].

(** ... and then the other message failed, the pass completed, and the
    campaign started once more. *)
Definition secondHalf : list Event :=
  [Proceed 0 rejects; Proceed 0 delivers; Start 1; Proceed 1 delivers].

(** The counters of a suspended pass add up with the rows it has left. *)
Definition balanced (slot : option Task) : Prop :=
  match slot with
  | Some t =>
      (t_sent t + t_failed t + List.length (t_messages t) = t_total t)%nat
  | None => True
  end.

Definition balancedResult (entry : Z * DispatchResult) : Prop :=
  (r_sent (snd entry) + r_failed (snd entry) = r_total (snd entry))%nat.

(** Two campaigns are due at the same tick; the second is started by
    hand and completed while the pass over the first is suspended. *)
Definition secondByHand : list Event :=
  [Create greetingAt50; Create greetingAt50; Cron; Start 2;
   Proceed 1 delivers; Proceed 1 delivers; Proceed 1 delivers].

(* ================================================================== *)
(** * The other handlers of the server *)
(* ================================================================== *)

(** ** Campaign details and analytics *)

(** [stats: { total, sent, failed, pending }] *)
Record Stats := mkStats {
  st_total : nat;
  st_sent : nat;
  st_failed : nat;
  st_pending : nat
}.

(** [m.status === st] *)
Definition hasStatus (st : MessageStatus) (m : Message) : bool :=
  MessageStatus_eqb (m_status m) st.

(** [SELECT * FROM messages WHERE campaign_id = ?] *)
Definition selectMessages (id : Z) (d : Database) : list Message :=
  filter (fun m => m_campaign_id m =? id) (messages d).

(** [app.get('/api/campaigns/:id')]: the answer spreads the campaign row
    (nothing, when no row has the id), and adds the messages of the
    campaign and the four counts. *)
Definition getCampaign (id : Z) (d : Database)
  : option Campaign * list Message * Stats :=
  let msgs := selectMessages id d in
  (findCampaign id d, msgs,
   mkStats (List.length msgs)
     (List.length (filter (hasStatus sent) msgs))
     (List.length (filter (hasStatus failed) msgs))
     (List.length (filter (hasStatus pending) msgs))).

Definition statsOf (id : Z) (d : Database) : Stats := snd (getCampaign id d).

(** [app.get('/api/analytics')] *)
Record Analytics := mkAnalytics {
  totalContacts : nat;
  totalCampaigns : nat;
  messagesSent : nat;
  messagesFailed : nat
}.

Definition analytics (d : Database) : Analytics :=
  mkAnalytics (List.length (contacts d)) (List.length (campaigns d))
    (List.length (filter (hasStatus sent) (messages d)))
    (List.length (filter (hasStatus failed) (messages d))).

(** ** Contacts *)

(** The [contacts] table with its [AUTOINCREMENT] counter.  The columns
    [tags] and [custom_fields], which these handlers write and nothing
    reads, are left out as in [Contact]. *)
Record Directory := mkDirectory {
  d_rows : list Contact;
  d_seq : Z
}.

Definition samePhone (p : string) (c : Contact) : bool :=
  match c_phone c with
  | Some q => String.eqb p q
  | None => false
  end.

(** [phone TEXT UNIQUE]: a value that is not [NULL] may stand in one row
    only. *)
Definition phoneTaken (phone : option string) (rows : list Contact) : bool :=
  match phone with
  | Some p => existsb (samePhone p) rows
  | None => false
  end.

Definition uniqueFailed : string :=
  "SQLITE_CONSTRAINT: UNIQUE constraint failed: contacts.phone".

(** [app.post('/api/contacts')]: the [INSERT] fails on a phone number
    that is taken, and then gives out no id. *)
Definition addContact (name phone email : option string) (dir : Directory)
  : Response * Directory :=
  if phoneTaken phone (d_rows dir) then (RError uniqueFailed, dir)
  else
    (RCreated (d_seq dir + 1),
     mkDirectory
       (d_rows dir ++ [mkContact (d_seq dir + 1) name phone email])
       (d_seq dir + 1)).

(** The row that [UPDATE contacts SET name = ?, phone = ?, email = ?, ...
    WHERE id = ?] makes of a row. *)
Definition updatedRow (id : Z) (name phone email : option string)
    (c : Contact) : Contact :=
  if c_id c =? id then mkContact (c_id c) name phone email else c.

(** [app.put('/api/contacts/:id')]: the [UPDATE] fails on [phone TEXT
    UNIQUE] when it changes a row and another row has the phone; when no
    row has the id it changes nothing and succeeds.  [id] is the primary
    key, so at most one row is changed. *)
Definition updateContact (id : Z) (name phone email : option string)
    (dir : Directory) : Response * Directory :=
  if existsb (fun c => c_id c =? id) (d_rows dir)
     && phoneTaken phone (filter (fun c => negb (c_id c =? id)) (d_rows dir))
  then (RError uniqueFailed, dir)
  else
    (RSuccess,
     mkDirectory (map (updatedRow id name phone email) (d_rows dir))
       (d_seq dir)).

(** [app.delete('/api/contacts/:id')] *)
Definition deleteContact (id : Z) (dir : Directory) : Response * Directory :=
  (RSuccess,
   mkDirectory (filter (fun c => negb (c_id c =? id)) (d_rows dir))
     (d_seq dir)).

(** A record of the uploaded file as [csv-parser] hands it over: a field
    is absent when the file has no such column. *)
Record CsvRow := mkCsvRow {
  v_name : option string;
  v_phone : option string;
  v_email : option string
}.

(** [row.name || '']: an absent field and an empty one give [''] *)
Definition orEmpty (v : option string) : string :=
  match v with
  | Some s => s
  | None => EmptyString
  end.

(** [stmt.run(row.name || '', row.phone || '', row.email || '', ...)] of
    [INSERT OR IGNORE INTO contacts]: a record whose phone is taken adds
    no row, but the id that was drawn for it from the [AUTOINCREMENT]
    counter is used up. *)
Definition insertOrIgnore (dir : Directory) (row : CsvRow) : Directory :=
  if phoneTaken (Some (orEmpty (v_phone row))) (d_rows dir) then
    mkDirectory (d_rows dir) (d_seq dir + 1)
  else
    mkDirectory
      (d_rows dir ++
       [mkContact (d_seq dir + 1) (Some (orEmpty (v_name row)))
          (Some (orEmpty (v_phone row))) (Some (orEmpty (v_email row)))])
      (d_seq dir + 1).

(** [app.post('/api/contacts/import')]: the answer reports
    [imported: results.length]. *)
Definition importContacts (rows : list CsvRow) (dir : Directory)
  : nat * Directory :=
  (List.length rows, fold_left insertOrIgnore rows dir).

(** No phone number stands in two rows. *)
Fixpoint phonesUnique (rows : list Contact) : Prop :=
  match rows with
  | [] => True
  | c :: rest => phoneTaken (c_phone c) rest = false /\ phonesUnique rest
  end.

(** ** Auxiliary notions for the other handlers *)

Definition delivering (ch : Channel) : Prop :=
  fromUrl_fails ch = None /\ sendMessage_fails ch = None.

(** The columns of a message row that no [UPDATE] of the server names. *)
Definition sameMessage (m m' : Message) : Prop :=
  m_id m' = m_id m /\ m_campaign_id m' = m_campaign_id m /\
  m_contact_id m' = m_contact_id m /\ m_phone m' = m_phone m /\
  m_message m' = m_message m.

(** ** Sample inputs for the other handlers *)

(** Two campaigns that fall due at the same tick. *)
Definition sampleTwoDue : World :=
  run sampleWorld [Create greetingAt50; Create greetingAt50].

(** The contacts of the scenario of the specification: a name and a phone
    number, no email. *)
Definition scenarioAna : Contact :=
  mkContact 1 (Some "Ana") (Some "+1555") None.

Definition scenarioLeo : Contact :=
  mkContact 2 (Some "Leo") (Some "+1556") None.

Definition sampleScenario : World :=
  mkWorld (mkDatabase [scenarioAna; scenarioLeo] [] [] 0 0) true 100
    [] [] [] [].

(** A selection that names Leo twice and a contact that does not exist. *)
Definition repeated : CampaignRequest :=
  mkRequest "again" "Hi {name}" [2; 2; 9] None None.

(** The campaign [greeting] created in an empty server. *)
Definition sampleCreated : World := snd (createCampaign greeting sampleWorld).

(** The number of rows with a status among the rows that [keep] holds of. *)
Definition countWith (keep : Message -> bool) (st : MessageStatus)
    (ms : list Message) : nat :=
  List.length (filter (fun m => keep m && hasStatus st m) ms).
(* ================================================================== *)
(** * Properties *)
(* ================================================================== *)

(** ** Sample evaluations *)

Example personalize_ana :
  personalize "Hi {name}, your number is {phone}"
    (mkContact 1 (Some "Ana") (Some "+1555") (Some "a@x.org"))
  = "Hi Ana, your number is +1555".
Proof. reflexivity. Qed.

(** The replacement patterns of [replace] in a contact's name. *)
Example personalize_dollar :
  personalize "<{name}|{name}>"
    (mkContact 1 (Some "a$$b$&c$`d$'e$1") (Some "+1555") None)
  = "<a$b{name}c<d|{name}>e$1|a$b{name}c<{name}|d>e$1>".
Proof. reflexivity. Qed.

Example formatPhone_plus : formatPhone "+1 (555) 010-99" = "155501099@c.us".
Proof. reflexivity. Qed.

(** ** Lists and rows *)

Section Lists.

Lemma filter_keys_distinct {Row} (key : Row -> Z) (keep : Row -> bool) rows :
  NoDup (map key rows) -> NoDup (map key (filter keep rows)).
Proof.
  induction rows as [|r rows IH]; cbn [map filter]; [intros; constructor|].
  intros Hkeys. apply NoDup_cons_iff in Hkeys as [Hfresh Hkeys].
  destruct (keep r); [|apply IH, Hkeys].
  cbn [map]. apply NoDup_cons; [|apply IH, Hkeys].
  contradict Hfresh.
  apply in_map_iff in Hfresh as (r' & Hr' & Hin).
  apply filter_In in Hin as (Hin & _).
  rewrite <- Hr'. apply in_map, Hin.
Qed.

Lemma key_injective {Row} (key : Row -> Z) rows a b :
  NoDup (map key rows) -> In a rows -> In b rows -> key a = key b -> a = b.
Proof.
  induction rows as [|r rows IH]; [contradiction|].
  cbn [map]. intros Hkeys Ha Hb Hab.
  apply NoDup_cons_iff in Hkeys as [Hfresh Hkeys].
  destruct Ha as [->|Ha], Hb as [->|Hb].
  - reflexivity.
  - exfalso. apply Hfresh. rewrite Hab. apply in_map, Hb.
  - exfalso. apply Hfresh. rewrite <- Hab. apply in_map, Ha.
  - apply IH; assumption.
Qed.

Lemma insert_between {A} (a b c : list A) :
  NoDup (a ++ c) -> NoDup b -> (forall x, In x b -> ~ In x (a ++ c)) ->
  NoDup (a ++ b ++ c).
Proof.
  intros Hac Hb Hfresh.
  apply Permutation_NoDup with (l := (b ++ a ++ c)%list).
  - apply Permutation_app_swap_app.
  - apply NoDup_app; assumption.
Qed.

Lemma remove_between {A} (a b c : list A) :
  NoDup (a ++ b ++ c) -> NoDup (a ++ c).
Proof.
  intros H. apply Permutation_NoDup with (l' := (b ++ a ++ c)%list) in H.
  - apply NoDup_app_remove_l in H. exact H.
  - apply Permutation_app_swap_app.
Qed.

Lemma setNth_split {A} (l : list A) :
  forall i x y,
    nth_error l i = Some x ->
    exists l1 l2, l = (l1 ++ x :: l2)%list /\ setNth i y l = (l1 ++ y :: l2)%list.
Proof.
  induction l as [|a l IH]; intros [|i] x y Hnth; try discriminate Hnth.
  - injection Hnth as ->. exists [], l. split; reflexivity.
  - destruct (IH i x y Hnth) as (l1 & l2 & -> & Hset).
    exists (a :: l1), l2. cbn [setNth app]. rewrite Hset. split; reflexivity.
Qed.

Lemma setNth_Forall {A} (P : A -> Prop) (l : list A) :
  forall i x, Forall P l -> P x -> Forall P (setNth i x l).
Proof.
  induction l as [|a l IH]; intros i x Hl Hx; [destruct i; constructor|].
  apply Forall_cons_iff in Hl as [Ha Hl].
  destruct i as [|i]; cbn [setNth]; constructor; auto.
Qed.

Lemma nth_error_setNth {A} (l : list A) :
  forall i x y, nth_error l i = Some y -> nth_error (setNth i x l) i = Some x.
Proof.
  induction l as [|a l IH]; intros [|i] x y Hnth; try discriminate Hnth.
  - reflexivity.
  - cbn [setNth nth_error]. eapply IH, Hnth.
Qed.

Lemma setNth_setNth {A} (l : list A) :
  forall i x y, setNth i x (setNth i y l) = setNth i x l.
Proof.
  induction l as [|a l IH]; intros [|i] x y; try reflexivity.
  cbn [setNth]. rewrite IH. reflexivity.
Qed.

Lemma setNth_same {A} (l : list A) :
  forall i x, nth_error l i = Some x -> setNth i x l = l.
Proof.
  induction l as [|a l IH]; intros [|i] x Hnth; try discriminate Hnth.
  - injection Hnth as ->. reflexivity.
  - cbn [setNth]. rewrite (IH i x Hnth). reflexivity.
Qed.

Lemma nth_error_last {A} (l : list A) x :
  nth_error (l ++ [x]) (List.length l) = Some x.
Proof. induction l as [|a l IH]; [reflexivity | exact IH]. Qed.

End Lists.

(** ** Addresses *)

Section Addresses.

Lemma removeNonDigits_allDigits (s : string) :
  allDigits (JS.removeNonDigits s) = true.
Proof.
  induction s as [|c s IH]; simpl; [reflexivity|].
  destruct (JS.isDigit c) eqn:Hc; simpl; [rewrite Hc|]; exact IH.
Qed.

Lemma prefix_cons (a b : ascii) (p s : string) :
  prefix (String a p) (String b s) = Ascii.eqb a b && prefix p s.
Proof.
  cbn [prefix]. destruct (ascii_dec a b) as [->|Hab].
  - rewrite Ascii.eqb_refl. reflexivity.
  - apply Ascii.eqb_neq in Hab. rewrite Hab. reflexivity.
Qed.

Lemma prefix_suffix_digit (c : ascii) (s : string) :
  JS.isDigit c = true -> prefix "@c.us" (String c s) = false.
Proof.
  intros Hc. rewrite prefix_cons.
  destruct (Ascii.eqb_spec "@" c) as [<-|]; [discriminate Hc | reflexivity].
Qed.

Lemma includes_allDigits (s : string) :
  allDigits s = true -> JS.includes "@c.us" s = false.
Proof.
  induction s as [|c s IH]; [reflexivity|].
  cbn [allDigits]. intros [Hc Hs]%andb_true_iff.
  cbn [JS.includes]. rewrite (prefix_suffix_digit c s Hc), (IH Hs).
  reflexivity.
Qed.

Lemma formatPhone_eq (phone : string) :
  formatPhone phone = JS.removeNonDigits phone ++ "@c.us".
Proof.
  unfold formatPhone.
  rewrite (includes_allDigits _ (removeNonDigits_allDigits phone)).
  reflexivity.
Qed.

Lemma isDigit_digits (c : ascii) :
  JS.isDigit c = existsb (Ascii.eqb c) (list_ascii_of_string "0123456789").
Proof.
  destruct c as [[] [] [] [] [] [] [] []]; reflexivity.
Qed.

Lemma removeNonDigits_filter (s : string) :
  list_ascii_of_string (JS.removeNonDigits s)
  = filter JS.isDigit (list_ascii_of_string s).
Proof.
  induction s as [|c s IH]; [reflexivity|].
  cbn [JS.removeNonDigits list_ascii_of_string filter].
  destruct (JS.isDigit c); cbn [list_ascii_of_string]; rewrite IH;
    reflexivity.
Qed.

Lemma prepareCall_address campaignId msg ch w call :
  prepareCall campaignId msg ch w = Calls call ->
  exists phone,
    m_phone msg = Some phone /\ s_to call = formatPhone phone /\
    s_body call = m_message msg.
Proof.
  unfold prepareCall. intros H.
  destruct (negb (isClientReady w)); [discriminate|].
  destruct (m_phone msg) as [phone|]; [|discriminate].
  exists phone.
  destruct (findCampaign campaignId (db w)) as [k|]; [|discriminate].
  destruct (JS.truthy (k_media_url k)), (fromUrl_fails ch);
    try discriminate; injection H as <-; auto.
Qed.

End Addresses.

(** C10. The digits of a phone number are its characters among
    [0123456789], in their order, and never contain [@c.us], so the test
    before the suffix never skips it.  In every loop iteration of the
    Dispatcher that reaches the send operation (the client is ready, the
    message has a phone number, the campaign row is found and its media,
    if any, is fetched), the address passed to the send operation is the
    digits of the stored phone number followed by [@c.us], whether the
    transport then accepts the call or rejects it; an accepted call is the
    one call the iteration adds to the calls made, and an iteration that
    does not reach the send operation, or whose call is rejected, adds
    none.  The send-text endpoint computes its address in the same
    way. *)
Theorem address_is_digits_and_suffix :
  forall campaignId total msg ch counters w,
    let w' := snd (attemptMessage campaignId total msg ch counters w) in
    (forall c,
        JS.isDigit c
        = existsb (Ascii.eqb c) (list_ascii_of_string "0123456789")) /\
    (forall phone,
        list_ascii_of_string (JS.removeNonDigits phone)
        = filter JS.isDigit (list_ascii_of_string phone) /\
        JS.includes "@c.us" (JS.removeNonDigits phone) = false /\
        formatPhone phone = JS.removeNonDigits phone ++ "@c.us") /\
    (forall phone k,
        isClientReady w = true ->
        m_phone msg = Some phone ->
        findCampaign campaignId (db w) = Some k ->
        (JS.truthy (k_media_url k) = true -> fromUrl_fails ch = None) ->
        prepareCall campaignId msg ch w
        = Calls (mkSend (JS.removeNonDigits phone ++ "@c.us")
                   (if JS.truthy (k_media_url k) then k_media_url k
                    else None)
                   (m_message msg))) /\
    (forall call,
        prepareCall campaignId msg ch w = Calls call ->
        (exists phone,
            m_phone msg = Some phone /\
            list_ascii_of_string (s_to call)
            = (filter JS.isDigit (list_ascii_of_string phone)
               ++ list_ascii_of_string "@c.us")%list) /\
        s_body call = m_message msg /\
        (sendMessage_fails ch = None -> sendLog w' = call :: sendLog w) /\
        (sendMessage_fails ch <> None -> sendLog w' = sendLog w)) /\
    (forall e,
        prepareCall campaignId msg ch w = Fails e ->
        sendLog w' = sendLog w) /\
    (forall number text,
        let w'' := snd (evolutionSendText number text ch w) in
        (forall phone,
            isClientReady w = true -> number = Some phone ->
            sendMessage_fails ch = None ->
            fst (evolutionSendText number text ch w)
            = RKey (JS.removeNonDigits phone ++ "@c.us") /\
            sendLog w'' =
              mkSend (JS.removeNonDigits phone ++ "@c.us") None text
              :: sendLog w) /\
        (isClientReady w = false \/ number = None \/
         sendMessage_fails ch <> None ->
         sendLog w'' = sendLog w)).
Proof.
  intros campaignId total msg ch [s f] w. cbn zeta.
  split; [|split; [|split; [|split; [|split]]]].
  - apply isDigit_digits.
  - intros phone. split; [apply removeNonDigits_filter|]. split.
    + apply includes_allDigits, removeNonDigits_allDigits.
    + apply formatPhone_eq.
  - intros phone k Hready Hphone Hk Hurl. unfold prepareCall.
    rewrite Hready, Hphone, Hk, formatPhone_eq. cbn [negb].
    destruct (JS.truthy (k_media_url k)); [|reflexivity].
    rewrite (Hurl eq_refl). reflexivity.
  - intros call Hcall.
    destruct (prepareCall_address _ _ _ _ _ Hcall) as (phone & Hp & Hto & Hb).
    split; [|split; [exact Hb|]].
    + exists phone. split; [exact Hp|].
      rewrite Hto, formatPhone_eq, <- removeNonDigits_filter.
      generalize (JS.removeNonDigits phone) as digits.
      induction digits as [|c digits IH]; [reflexivity|].
      cbn [append list_ascii_of_string app]. rewrite IH. reflexivity.
    + unfold attemptMessage, trySend. rewrite Hcall.
      destruct (sendMessage_fails ch) as [e|]; split; intros Hch;
        try discriminate Hch; try reflexivity.
      exfalso. apply Hch. reflexivity.
  - intros e He. unfold attemptMessage, trySend. rewrite He. reflexivity.
  - intros number text. unfold evolutionSendText. split.
    + intros phone Hready -> Hch. rewrite Hready, Hch, formatPhone_eq.
      cbn. split; reflexivity.
    + intros Hnot.
      destruct (isClientReady w); cbn [negb]; [|reflexivity].
      destruct number as [phone|]; [|reflexivity].
      destruct (sendMessage_fails ch); [reflexivity|].
      destruct Hnot as [H|[H|H]]; try discriminate H.
      exfalso. apply H. reflexivity.
Qed.
(** ** One pass of the Dispatcher *)

Section Pass.

Variable campaignId : Z.

Lemma attemptMessage_frame total msg ch counters w :
  let r := attemptMessage campaignId total msg ch counters w in
  campaigns (db (snd r)) = campaigns (db w) /\
  now (snd r) = now w /\
  isClientReady (snd r) = isClientReady w /\
  tasks (snd r) = tasks w /\
  results (snd r) = results w /\
  (fst (fst r) + snd (fst r) = S (fst counters + snd counters))%nat.
Proof.
  destruct counters as [s f]. unfold attemptMessage.
  destruct (trySend campaignId msg ch w); cbn; repeat split; lia.
Qed.

Lemma sendLoop_frame total msgs :
  forall chs counters w,
    let r := sendLoop campaignId total msgs chs counters w in
    campaigns (db (snd r)) = campaigns (db w) /\
    now (snd r) = now w /\
    isClientReady (snd r) = isClientReady w /\
    tasks (snd r) = tasks w /\
    results (snd r) = results w /\
    (fst (fst r) + snd (fst r)
     = fst counters + snd counters + List.length msgs)%nat.
Proof.
  induction msgs as [|msg rest IH]; intros chs counters w.
  - cbn. repeat split; lia.
  - cbn [sendLoop].
    pose proof (attemptMessage_frame total msg (hd delivers chs) counters w)
      as Hone.
    destruct (attemptMessage campaignId total msg (hd delivers chs)
                counters w) as [counters' w'].
    cbn zeta in Hone. cbn [fst snd] in Hone.
    destruct Hone as (Hk & Hn & Hr & Ht & Hres & Hsum).
    specialize (IH (tl chs) counters' w'). cbn zeta in IH |- *.
    destruct IH as (Hk' & Hn' & Hr' & Ht' & Hres' & Hsum').
    rewrite Hk', Hn', Hr', Ht', Hres', Hsum'. cbn [List.length].
    repeat split; try assumption; lia.
Qed.

Lemma find_completed t (ks : list Campaign) :
  find (fun k => k_id k =? campaignId)
    (map (fun k => if k_id k =? campaignId then completeRow t k else k) ks)
  = option_map (completeRow t) (find (fun k => k_id k =? campaignId) ks).
Proof.
  induction ks as [|k ks IH]; [reflexivity|].
  cbn [map find]. destruct (k_id k =? campaignId) eqn:Hk.
  - cbn [completeRow k_id]. rewrite Hk. reflexivity.
  - rewrite Hk. exact IH.
Qed.

Lemma attemptMessage_not_ready total msg ch s f w :
  isClientReady w = false ->
  attemptMessage campaignId total msg ch (s, f) w
  = ((s, S f), with_db (updateFailed notReady (m_id msg) (db w)) w).
Proof.
  intros Hr. unfold attemptMessage, trySend, prepareCall. rewrite Hr. reflexivity.
Qed.

Lemma sendLoop_not_ready total msgs :
  forall chs s f w,
    isClientReady w = false ->
    let r := sendLoop campaignId total msgs chs (s, f) w in
    fst r = (s, (f + List.length msgs)%nat) /\
    messages (db (snd r)) = map (failIds (map m_id msgs)) (messages (db w)) /\
    sendLog (snd r) = sendLog w /\
    emitted (snd r) = emitted w.
Proof.
  induction msgs as [|msg rest IH]; intros chs s f w Hr.
  - cbn. rewrite Nat.add_0_r. repeat split.
    unfold failIds. cbn. symmetry. apply map_id.
  - cbn [sendLoop]. rewrite attemptMessage_not_ready by exact Hr.
    set (w1 := with_db _ w).
    destruct (IH (tl chs) s (S f) w1 Hr) as (Hc & Hm & Hs & He).
    cbn zeta. rewrite Hc, Hm, Hs, He. cbn [List.length].
    repeat split; [f_equal; lia|].
    subst w1. cbn. rewrite map_map. apply map_ext. intros m.
    unfold failIds. cbn [map existsb].
    destruct (m_id m =? m_id msg) eqn:Hid; cbn [orb].
    + cbn [failedRow m_id]. destruct (existsb _ _); reflexivity.
    + reflexivity.
Qed.

End Pass.

(** C3. When the channel is not ready, a pass of the Dispatcher over a
    campaign calls the send operation for no message and emits no
    progress event.  Every message of the campaign that was pending at
    the start stands at its place in the table with status [failed] and
    the error text of the channel in its error field, its other columns
    as they were; no message of the campaign is pending any more.  The
    campaign row has status [completed] and the time of the pass as its
    completion time, its other columns as they were.  The result has
    [sent = 0] and [failed = total], the number of messages that were
    pending. *)
Theorem never_ready_pass_fails_all :
  forall campaignId chs w,
    isClientReady w = false ->
    let res := fst (sendBulkMessages campaignId chs w) in
    let w' := snd (sendBulkMessages campaignId chs w) in
    (forall i m,
        nth_error (messages (db w)) i = Some m ->
        m_campaign_id m = campaignId -> m_status m = pending ->
        exists m',
          nth_error (messages (db w')) i = Some m' /\
          m_status m' = failed /\
          m_error m' = Some "WhatsApp client not ready" /\
          m_id m' = m_id m /\ m_campaign_id m' = campaignId /\
          m_contact_id m' = m_contact_id m /\ m_phone m' = m_phone m /\
          m_message m' = m_message m /\ m_sent_at m' = m_sent_at m)
    /\ (forall m', In m' (messages (db w')) ->
                   m_campaign_id m' = campaignId -> m_status m' <> pending)
    /\ List.length (messages (db w')) = List.length (messages (db w))
    /\ (forall k, findCampaign campaignId (db w) = Some k ->
          exists k',
            findCampaign campaignId (db w') = Some k' /\
            k_status k' = completed /\
            k_completed_at k' = Some (now w) /\
            k_id k' = campaignId /\ k_name k' = k_name k /\
            k_message k' = k_message k /\ k_media_url k' = k_media_url k /\
            k_media_type k' = k_media_type k /\
            k_scheduled_at k' = k_scheduled_at k)
    /\ r_failed res = r_total res
    /\ r_sent res = O
    /\ r_total res = List.length (selectPending campaignId (db w))
    /\ sendLog w' = sendLog w
    /\ emitted w' = emitted w.
Proof.
  intros campaignId chs w Hr. unfold sendBulkMessages.
  set (msgs := selectPending campaignId (db w)).
  pose proof (sendLoop_not_ready campaignId (List.length msgs) msgs chs O O w Hr)
    as Hloop.
  pose proof (sendLoop_frame campaignId (List.length msgs) msgs chs (O, O) w)
    as Hframe.
  destruct (sendLoop campaignId (List.length msgs) msgs chs (O, O) w)
    as [counters w1].
  cbn zeta in Hloop, Hframe. cbn [fst snd] in Hloop, Hframe.
  destruct Hloop as (Hc & Hm & Hs & He).
  destruct Hframe as (Hk & Hn & _).
  subst counters.
  assert (Hfetched : forall m, In m (messages (db w)) ->
            m_campaign_id m = campaignId -> m_status m = pending ->
            existsb (Z.eqb (m_id m)) (map m_id msgs) = true).
  { intros m Hin Hcid Hst. apply existsb_exists.
    exists (m_id m). split; [|apply Z.eqb_refl].
    apply in_map. apply filter_In. split; [exact Hin|].
    unfold isPendingOf. rewrite Hcid, Z.eqb_refl, Hst. reflexivity. }
  cbn [completePass fst snd with_db db sendLog emitted with_campaigns
       updateCompleted messages r_sent r_failed r_total].
  split; [|split; [|split; [|split; [|repeat split]]]].
  - intros i m Hnth Hcid Hst. rewrite Hm, nth_error_map, Hnth.
    cbn [option_map]. eexists. split; [reflexivity|].
    unfold failIds.
    rewrite (Hfetched m (nth_error_In _ _ Hnth) Hcid Hst).
    cbn. repeat split. exact Hcid.
  - intros m' Hin Hcid Hst. rewrite Hm in Hin.
    apply in_map_iff in Hin as (m & <- & Hin). unfold failIds in Hcid, Hst.
    destruct (existsb (Z.eqb (m_id m)) (map m_id msgs)) eqn:Hex.
    + discriminate Hst.
    + rewrite (Hfetched m Hin Hcid Hst) in Hex. discriminate Hex.
  - rewrite Hm. apply length_map.
  - intros k Hfind. exists (completeRow (now w) k).
    assert (Hid : k_id k = campaignId).
    { unfold findCampaign in Hfind. apply find_some in Hfind as (_ & Hid).
      apply Z.eqb_eq, Hid. }
    unfold findCampaign in *. cbn.
    rewrite Hk, Hn, find_completed, Hfind. cbn. repeat split. exact Hid.
  - exact Hs.
  - exact He.
Qed.

Lemma never_ready_pass_fails_all_witness :
  r_failed (fst (sendBulkMessages 1 [] sampleOffline)) = 2%nat /\
  r_total (fst (sendBulkMessages 1 [] sampleOffline)) = 2%nat /\
  map m_status (messages (db (snd (sendBulkMessages 1 [] sampleOffline))))
  = [failed; failed] /\
  option_map k_status
    (findCampaign 1 (db (snd (sendBulkMessages 1 [] sampleOffline))))
  = Some completed.
Proof.
  destruct (never_ready_pass_fails_all 1 [] sampleOffline eq_refl)
    as (_ & _ & _ & _ & Hf & _ & Ht & _).
  split; [rewrite Hf; exact Ht|]. split; [exact Ht|].
  split; reflexivity.
Defined.

(** C7. A pass of the Dispatcher that has gone through every message that
    was pending at its start leaves the campaign row completed, with the
    time of the pass as its completion time, whatever the transport did
    in the attempts; its result has [sent + failed = total], where
    [total] is the number of messages that were pending at the start. *)
Theorem pass_completes_campaign :
  forall campaignId chs w,
    let res := fst (sendBulkMessages campaignId chs w) in
    let w' := snd (sendBulkMessages campaignId chs w) in
    (forall k, findCampaign campaignId (db w) = Some k ->
       exists k', findCampaign campaignId (db w') = Some k' /\
                  k_status k' = completed /\
                  k_completed_at k' = Some (now w))
    /\ (r_sent res + r_failed res = r_total res)%nat
    /\ r_total res = List.length (selectPending campaignId (db w)).
Proof.
  intros campaignId chs w. unfold sendBulkMessages.
  set (msgs := selectPending campaignId (db w)).
  pose proof (sendLoop_frame campaignId (List.length msgs) msgs chs (O, O) w)
    as Hframe.
  destruct (sendLoop campaignId (List.length msgs) msgs chs (O, O) w)
    as [counters w1].
  cbn zeta in Hframe. cbn [fst snd] in Hframe.
  destruct Hframe as (Hk & Hn & _ & _ & _ & Hsum).
  cbn. repeat split; [|lia].
  intros k Hfind. exists (completeRow (now w) k).
  unfold findCampaign in *. cbn.
  rewrite Hk, Hn, find_completed, Hfind. repeat split.
Qed.

(** ** Starting a campaign *)

Section Updates.

Variable id : Z.
Variable f : Campaign -> Campaign.
Hypothesis f_id : forall k, k_id (f k) = k_id k.

Lemma find_update (ks : list Campaign) :
  find (fun k => k_id k =? id)
    (map (fun k => if k_id k =? id then f k else k) ks)
  = option_map f (find (fun k => k_id k =? id) ks).
Proof.
  induction ks as [|k ks IH]; [reflexivity|].
  cbn [map find]. destruct (k_id k =? id) eqn:Hk.
  - rewrite f_id, Hk. reflexivity.
  - rewrite Hk. exact IH.
Qed.

Lemma update_absent (ks : list Campaign) :
  find (fun k => k_id k =? id) ks = None ->
  map (fun k => if k_id k =? id then f k else k) ks = ks.
Proof.
  intros Hnone. rewrite <- (map_id ks) at 2. apply map_ext_in.
  intros k Hin. rewrite (find_none _ _ Hnone k Hin). reflexivity.
Qed.

End Updates.

Lemma findCampaign_updateStatus st id d :
  findCampaign id (updateStatus st id d)
  = option_map (setStatus st) (findCampaign id d).
Proof. apply find_update. reflexivity. Qed.

(** C1 does not hold as stated: the start of a campaign that is
    already running is answered with success and begins a second pass,
    and so is the start of an id that no campaign has. *)
Lemma start_of_running_campaign_accepted :
  statusOf 1 sampleRunning = Some running /\
  rejected (fst (startCampaign 1 sampleRunning)) = false /\
  List.length (tasks (snd (startCampaign 1 sampleRunning)))
  = S (List.length (tasks sampleRunning)) /\
  statusOf 7 sampleRunning = None /\
  rejected (fst (startCampaign 7 sampleRunning)) = false.
Proof. repeat split. Qed.

(** C1, amended. The start operation answers success for every id and
    every status.  The row with that id, when there is one, gets the
    status 'running' whatever its status was; when there is none the
    table of campaigns is unchanged.  No message row changes, and a pass
    over the pending messages of that id is begun.  Only the page holds
    back: it offers the Start button for draft and scheduled campaigns
    alone. *)
Theorem startCampaign_accepts_every_request :
  forall id w,
    let w' := snd (startCampaign id w) in
    fst (startCampaign id w) = RStarted /\
    (forall k, findCampaign id (db w) = Some k ->
               findCampaign id (db w') = Some (setStatus running k)) /\
    (findCampaign id (db w) = None -> campaigns (db w') = campaigns (db w)) /\
    messages (db w') = messages (db w) /\
    tasks w' =
      (tasks w ++
       [Some (mkTask id (selectPending id (db w))
                (List.length (selectPending id (db w))) O O [])])%list /\
    (forall st, startOffered st = true <-> st = draft \/ st = scheduled).
Proof.
  intros id w. cbn. repeat split.
  - intros k Hk.
    change (findCampaign id (updateStatus running id (db w))
            = Some (setStatus running k)).
    rewrite findCampaign_updateStatus, Hk. reflexivity.
  - intros Hnone. apply update_absent. exact Hnone.
  - destruct st; cbn; intros H; try discriminate H; auto.
  - intros [->| ->]; reflexivity.
Qed.

(** ** Creating a campaign with no contact *)

(** C9 does not hold as stated: the request with an empty list of
    contact ids is answered with success and leaves a campaign row. *)
Lemma create_without_contacts_accepted :
  fst (createCampaign nobody sampleWorld) = RCreated 1 /\
  rejected (fst (createCampaign nobody sampleWorld)) = false /\
  statusOf 1 (snd (createCampaign nobody sampleWorld)) = Some draft /\
  messages (db (snd (createCampaign nobody sampleWorld))) = [].
Proof. repeat split. Qed.

(** C9, amended. With an empty selection the form of the page alerts the
    user and sends no request, so nothing is created.  The server
    operation itself does not refuse an empty list of contact ids: it
    answers success, adds the campaign row and adds no message row. *)
Theorem create_without_contacts :
  forall req w,
    q_contacts req = [] ->
    handleCreateCampaign req w
    = (Alerted "Please select at least one contact", w) /\
    fst (createCampaign req w) = RCreated (campaign_seq (db w) + 1) /\
    List.length (campaigns (db (snd (createCampaign req w))))
    = S (List.length (campaigns (db w))) /\
    messages (db (snd (createCampaign req w))) = messages (db w).
Proof.
  intros req w Hempty. unfold handleCreateCampaign, createCampaign.
  rewrite Hempty. cbn. repeat split.
  - rewrite length_app. cbn. lia.
  - unfold selectContacts. cbn.
    assert (Hnone : filter (fun _ : Contact => false) (contacts (db w)) = []).
    { induction (contacts (db w)); [reflexivity | assumption]. }
    rewrite Hnone. cbn. apply app_nil_r.
Qed.

Lemma create_without_contacts_witness :
  handleCreateCampaign nobody sampleWorld
  = (Alerted "Please select at least one contact", sampleWorld) /\
  fst (createCampaign nobody sampleWorld) = RCreated 1.
Proof.
  destruct (create_without_contacts nobody sampleWorld eq_refl)
    as (Hform & Hserver & _).
  split; [exact Hform | exact Hserver].
Defined.

(** ** Substitution *)

(** C5, evaluated on a contact without an email address: the
    placeholder is replaced by the text [null]. *)
Theorem absent_field_substituted_as_null :
  c_email eva = None /\
  personalize "Hi {name} <{email}>" eva = "Hi Eva <null>".
Proof. split; reflexivity. Qed.

(** ** The cron job and the manual start *)

(** C2 does not hold as stated.  After the cron job has claimed a
    scheduled campaign, a manual start of the same campaign is accepted
    as well; both passes fetch the same pending messages and both
    deliver them.  And a campaign that the tick selected is handed over
    when its turn comes although a manual start has run it to completion
    in the meantime. *)
Lemma cron_and_manual_start_both_dispatch :
  statusOf 1 (run sampleWorld [Create greetingAt50]) = Some scheduled /\
  statusOf 1 sampleClaimed = Some running /\
  List.length (tasks sampleClaimed) = 1%nat /\
  rejected (fst (startCampaign 1 sampleClaimed)) = false /\
  map (option_map (fun t => map m_id (t_messages t)))
    (tasks (snd (startCampaign 1 sampleClaimed)))
  = [Some [1; 2]; Some [1; 2]] /\
  map s_to
    (sendLog
       (run (snd (startCampaign 1 sampleClaimed))
          [Proceed 0 delivers; Proceed 1 delivers;
           Proceed 0 delivers; Proceed 1 delivers]))
  = ["1556@c.us"; "1556@c.us"; "1555@c.us"; "1555@c.us"] /\
  statusOf 2 (run sampleWorld secondByHand) = Some completed /\
  statusOf 2
    (run sampleWorld
       (secondByHand
        ++ [Proceed 0 delivers; Proceed 0 delivers; Proceed 0 delivers]))
  = Some running.
Proof. repeat split. Qed.

(** ** Pausing *)

(** C4, evaluated on a campaign of three messages that is paused after
    the first: the pass goes on, delivers the other two and completes
    the campaign; a start between the pause and the end of the pass
    begins a second pass over the same two messages. *)
Theorem pause_not_observed_by_pass :
  statusOf 1 samplePaused = Some paused /\
  messageStatuses samplePaused = [(1, sent); (2, pending); (3, pending)] /\
  messageStatuses
    (run samplePaused [Proceed 0 delivers; Proceed 0 delivers])
  = [(1, sent); (2, sent); (3, sent)] /\
  statusOf 1
    (run samplePaused
       [Proceed 0 delivers; Proceed 0 delivers; Proceed 0 delivers])
  = Some completed /\
  map s_to
    (sendLog
       (run samplePaused
          [Start 1; Proceed 0 delivers; Proceed 1 delivers;
           Proceed 0 delivers; Proceed 1 delivers]))
  = ["1557@c.us"; "1557@c.us"; "1556@c.us"; "1556@c.us"; "1555@c.us"].
Proof. repeat split. Qed.

Lemma findCampaign_present id d k :
  In k (campaigns d) -> k_id k = id -> exists k', findCampaign id d = Some k'.
Proof.
  intros Hin Hid. unfold findCampaign.
  destruct (find (fun k0 => k_id k0 =? id) (campaigns d)) as [k'|] eqn:Hfind.
  - exists k'. reflexivity.
  - pose proof (find_none _ _ Hfind k Hin) as Hno. cbn in Hno.
    rewrite Hid, Z.eqb_refl in Hno. discriminate.
Qed.

Lemma started_not_due id t d :
  ~ In id (map k_id (selectDue t (updateStatus running id d))).
Proof.
  intros Hin. apply in_map_iff in Hin as (k' & Hid & Hdue).
  apply filter_In in Hdue as (Hin & Hdue). cbn in Hin.
  apply in_map_iff in Hin as (k & Hk & _). subst k'.
  destruct (k_id k =? id) eqn:Hkid.
  - discriminate Hdue.
  - rewrite Hid, Z.eqb_refl in Hkid. discriminate.
Qed.

(** C2, amended. The transition to 'running' is an unconditional write
    on both paths and nobody is rejected.  A tick of the cron job selects
    the campaigns that are 'scheduled' and due when its query runs, sets
    the first of them to 'running' and begins a pass over its pending
    messages; each of the others is set to 'running' and handed over
    when the pass before it has resolved, without a second look at its
    status.  A manual start is accepted in every state; after it the
    campaign is not 'scheduled' any more, so a tick whose query runs
    after the start does not select that campaign. *)
Theorem cron_hands_over_what_it_selected :
  forall w,
    (forall k, In k (selectDue (now w) (db w)) ->
       k_status k = scheduled /\
       exists t, k_scheduled_at k = Some t /\ t <= now w) /\
    tasks (cronTick w) =
      match map k_id (selectDue (now w) (db w)) with
      | [] => tasks w
      | id :: next =>
          (tasks w ++
           [Some (mkTask id (selectPending id (db w))
                    (List.length (selectPending id (db w))) O O next)])%list
      end /\
    (forall id next,
       map k_id (selectDue (now w) (db w)) = id :: next ->
       statusOf id (cronTick w) = Some running) /\
    (forall i t ch id next,
       nth_error (tasks w) i = Some (Some t) ->
       t_messages t = [] -> t_then t = id :: next ->
       nth_error (tasks (step w (Proceed i ch))) i
       = Some (Some (mkTask id (selectPending id (db w))
                       (List.length (selectPending id (db w))) O O next)) /\
       forall k, findCampaign id (db w) = Some k ->
                 statusOf id (step w (Proceed i ch)) = Some running) /\
    (forall id,
       fst (startCampaign id w) = RStarted /\
       ~ In id (map k_id (selectDue (now (snd (startCampaign id w)))
                            (db (snd (startCampaign id w)))))).
Proof.
  intros w. split; [|split; [|split; [|split]]].
  - intros k Hin. apply filter_In in Hin as (_ & Hdue).
    unfold isDue in Hdue. apply andb_true_iff in Hdue as (Hst & Hat).
    split.
    + destruct (k_status k); try discriminate Hst; reflexivity.
    + destruct (k_scheduled_at k) as [t|]; [|discriminate].
      exists t. split; [reflexivity | apply Z.leb_le, Hat].
  - unfold cronTick.
    destruct (map k_id (selectDue (now w) (db w))); reflexivity.
  - intros id next Hsel. unfold cronTick, statusOf. rewrite Hsel. cbn.
    change (option_map k_status
              (findCampaign id (updateStatus running id (db w)))
            = Some running).
    rewrite findCampaign_updateStatus.
    assert (Hin : In id (map k_id (selectDue (now w) (db w))))
      by (rewrite Hsel; left; reflexivity).
    apply in_map_iff in Hin as (k & Hid & Hin).
    apply filter_In in Hin as (Hin & _).
    destruct (findCampaign_present id (db w) k Hin Hid) as (k' & ->).
    reflexivity.
  - intros i t ch id next Hnth Hqueue Hthen. cbn [step].
    rewrite Hnth. unfold proceedTask. rewrite Hqueue, Hthen. cbn. split.
    + eapply nth_error_setNth, Hnth.
    + intros k Hk. unfold statusOf. cbn.
      change (option_map k_status
                (findCampaign id
                   (updateStatus running id
                      (updateCompleted (now w) (t_campaign t) (db w))))
              = Some running).
      rewrite findCampaign_updateStatus.
      assert (Hin : In k (campaigns (db w)) /\ k_id k = id).
      { apply find_some in Hk as (Hin & Hid). apply Z.eqb_eq in Hid. auto. }
      destruct Hin as (Hin & Hid).
      assert (Hin' : In (if k_id k =? t_campaign t
                         then completeRow (now w) k else k)
                       (campaigns
                          (updateCompleted (now w) (t_campaign t) (db w))))
        by (cbn; apply (in_map
              (fun k0 => if k_id k0 =? t_campaign t
                         then completeRow (now w) k0 else k0)), Hin).
      assert (Hid' : k_id (if k_id k =? t_campaign t
                           then completeRow (now w) k else k) = id)
        by (destruct (k_id k =? t_campaign t); exact Hid).
      destruct (findCampaign_present id _ _ Hin' Hid') as (k' & ->).
      reflexivity.
  - intros id. split; [reflexivity|]. cbn. apply started_not_due.
Qed.

(** ** The scan of [replace] over a template *)

Section Scan.

Lemma prefix_empty (s : string) : prefix EmptyString s = true.
Proof. destruct s; reflexivity. Qed.

Lemma prefix_append (p rest : string) : prefix p (p ++ rest) = true.
Proof.
  induction p as [|c p IH]; [apply prefix_empty|].
  cbn [append]. rewrite prefix_cons, Ascii.eqb_refl. exact IH.
Qed.

Lemma lacks_append c (a b : string) :
  lacks c (a ++ b) = lacks c a && lacks c b.
Proof.
  induction a as [|d a IH]; [reflexivity|].
  cbn [append lacks]. rewrite IH, andb_assoc. reflexivity.
Qed.

Lemma lacks_includes (p s : string) :
  lacks "{" s = true -> JS.includes (String "{" p) s = false.
Proof.
  induction s as [|c s IH]; [reflexivity|].
  cbn [lacks]. intros [Hc Hs]%andb_true_iff.
  cbn [JS.includes]. rewrite prefix_cons, (IH Hs).
  rewrite Ascii.eqb_sym. apply negb_true_iff in Hc. rewrite Hc.
  reflexivity.
Qed.

Variable pat : string.
Variable v : string.
Hypothesis v_plain : lacks "$" v = true.

Lemma getSubstitution_plain matched before after :
  JS.getSubstitution matched before after v = v.
Proof.
  revert v_plain. generalize v as t.
  induction t as [|c t IH]; [reflexivity|].
  cbn [lacks]. intros [Hc Ht]%andb_true_iff.
  apply negb_true_iff in Hc. cbn [JS.getSubstitution].
  rewrite Hc, (IH Ht). reflexivity.
Qed.

Lemma replaceScan_before (s : string) :
  forall k b1 b2,
    JS.replaceScan pat v b1 k s = JS.replaceScan pat v b2 k s.
Proof.
  induction s as [|c s IH]; intros k b1 b2; [reflexivity|].
  cbn [JS.replaceScan]. destruct k as [|k].
  - destruct (prefix pat (String c s)).
    + rewrite !getSubstitution_plain. f_equal. apply IH.
    + f_equal. apply IH.
  - apply IH.
Qed.

Lemma scan_char b c (s : string) :
  prefix pat (String c s) = false ->
  JS.replaceScan pat v b O (String c s)
  = String c (JS.replaceScan pat v b O s).
Proof.
  intros Hp. cbn [JS.replaceScan]. rewrite Hp. f_equal.
  apply replaceScan_before.
Qed.

Lemma scan_skip (p : string) :
  forall b rest,
    JS.replaceScan pat v b (String.length p) (p ++ rest)
    = JS.replaceScan pat v b O rest.
Proof.
  induction p as [|c p IH]; intros b rest; [reflexivity|].
  cbn [append String.length].
  destruct rest as [|d rest'] eqn:Hrest.
  - cbn [JS.replaceScan]. rewrite (replaceScan_before _ _ _ b). apply IH.
  - cbn [JS.replaceScan]. rewrite (replaceScan_before _ _ _ b). apply IH.
Qed.

Lemma scan_match b c p (rest : string) :
  pat = String c p ->
  JS.replaceScan pat v b O (String c (p ++ rest))
  = v ++ JS.replaceScan pat v b O rest.
Proof.
  intros Hpat.
  assert (Hpre : prefix pat (String c (p ++ rest)) = true)
    by (rewrite Hpat; apply (prefix_append (String c p) rest)).
  assert (Hlen : (String.length pat - 1 = String.length p)%nat)
    by (rewrite Hpat; cbn [String.length]; lia).
  cbn [JS.replaceScan]. rewrite Hpre, getSubstitution_plain, Hlen. f_equal.
  rewrite (replaceScan_before _ _ _ b). apply scan_skip.
Qed.

Lemma scan_text b p (l rest : string) :
  pat = String "{" p ->
  lacks "{" l = true ->
  JS.replaceScan pat v b O (l ++ rest)
  = l ++ JS.replaceScan pat v b O rest.
Proof.
  intros Hpat. induction l as [|c l IH]; [reflexivity|].
  cbn [lacks]. intros [Hc Hl]%andb_true_iff. cbn [append].
  rewrite scan_char.
  - f_equal. apply IH, Hl.
  - rewrite Hpat, prefix_cons, Ascii.eqb_sym.
    apply negb_true_iff in Hc. rewrite Hc. reflexivity.
Qed.

End Scan.

Section Templates.

Lemma placeholder_shape (f : Field) :
  exists p, placeholder f = String "{" p /\ lacks "{" p = true.
Proof. destruct f; eexists; split; reflexivity. Qed.

Lemma Field_eqb_eq (f g : Field) : Field_eqb f g = true -> f = g.
Proof. destruct f, g; intros H; try discriminate H; reflexivity. Qed.

Variable v : string.
Hypothesis v_dollar : lacks "$" v = true.

Lemma scan_hole_same f b rest :
  JS.replaceScan (placeholder f) v b O (placeholder f ++ rest)
  = v ++ JS.replaceScan (placeholder f) v b O rest.
Proof.
  destruct (placeholder_shape f) as (p & Hp & _).
  replace (placeholder f ++ rest) with (String "{" (p ++ rest))
    by (rewrite Hp; reflexivity).
  apply scan_match with (p := p); assumption.
Qed.

Lemma scan_hole_other f g b rest :
  Field_eqb f g = false ->
  JS.replaceScan (placeholder f) v b O (placeholder g ++ rest)
  = placeholder g ++ JS.replaceScan (placeholder f) v b O rest.
Proof.
  intros Hfg.
  destruct (placeholder_shape f) as (pf & Hpf & _).
  destruct (placeholder_shape g) as (pg & Hpg & Hlacks).
  rewrite Hpg. cbn [append]. rewrite scan_char.
  - f_equal. apply scan_text with (p := pf); assumption.
  - exact v_dollar.
  - destruct f, g; try discriminate Hfg;
      injection Hpg as <-; cbn [placeholder append];
      rewrite !prefix_cons; reflexivity.
Qed.

Lemma replace_render f b (ps : list Piece) :
  bracesInHoles ps = true ->
  JS.replaceScan (placeholder f) v b O (render ps)
  = render (map (fill1 f v) ps).
Proof.
  induction ps as [|[s|g] ps IH]; [reflexivity | |].
  - cbn [bracesInHoles forallb]. intros [Hs Hps]%andb_true_iff.
    destruct (placeholder_shape f) as (p & Hp & _).
    cbn [render map fill1].
    rewrite scan_text with (p := p) by assumption.
    f_equal. apply IH, Hps.
  - cbn [bracesInHoles forallb]. intros Hps. cbn [render map fill1].
    destruct (Field_eqb f g) eqn:Hfg.
    + apply Field_eqb_eq in Hfg as <-. rewrite scan_hole_same.
      cbn [render]. f_equal. apply IH, Hps.
    + rewrite scan_hole_other by exact Hfg.
      cbn [render]. f_equal. apply IH, Hps.
Qed.

Lemma bracesInHoles_fill1 f (ps : list Piece) :
  lacks "{" v = true ->
  bracesInHoles ps = true -> bracesInHoles (map (fill1 f v) ps) = true.
Proof.
  intros Hv. induction ps as [|[s|g] ps IH]; [reflexivity | |];
    cbn [bracesInHoles forallb map fill1].
  - intros [Hs Hps]%andb_true_iff. rewrite Hs. apply IH, Hps.
  - intros Hps. destruct (Field_eqb f g); cbn [forallb];
      [rewrite Hv|]; apply IH, Hps.
Qed.

End Templates.

Lemma plainValue_text (o : option string) :
  plainValue o = true ->
  lacks "{" (JS.toString o) = true /\ lacks "$" (JS.toString o) = true.
Proof.
  destruct o as [s|]; [|intros _; split; reflexivity].
  intros [H1 H2]%andb_true_iff. cbn [JS.toString]. auto.
Qed.

Lemma plainContact_fields (c : Contact) :
  plainContact c = true ->
  forall f, lacks "{" (JS.toString (fieldOf f c)) = true /\
            lacks "$" (JS.toString (fieldOf f c)) = true.
Proof.
  unfold plainContact. intros Hc.
  apply andb_true_iff in Hc as [Hc He]. apply andb_true_iff in Hc as [Hn Hp].
  intros [| |]; cbn [fieldOf]; apply plainValue_text; assumption.
Qed.

(** On a template whose braces all belong to placeholders, and for a
    contact whose fields, where they are present, are plain, the three
    calls of [replace] fill every hole with the contact's value ([null]
    for a field that is absent). *)
Lemma personalize_filled (ps : list Piece) (c : Contact) :
  bracesInHoles ps = true -> plainContact c = true ->
  personalize (render ps) c = filled c ps.
Proof.
  intros Hps Hc. pose proof (plainContact_fields c Hc) as Hfields.
  destruct (Hfields FName) as (Hn1 & Hn2).
  destruct (Hfields FPhone) as (Hp1 & Hp2).
  destruct (Hfields FEmail) as (He1 & He2).
  cbn [fieldOf] in Hn1, Hn2, Hp1, Hp2, He1, He2.
  unfold personalize, JS.replaceAll.
  change "{name}" with (placeholder FName).
  change "{phone}" with (placeholder FPhone).
  change "{email}" with (placeholder FEmail).
  rewrite (replace_render (JS.toString (c_name c)) Hn2 FName) by exact Hps.
  rewrite (replace_render (JS.toString (c_phone c)) Hp2 FPhone)
    by (apply bracesInHoles_fill1; assumption).
  rewrite (replace_render (JS.toString (c_email c)) He2 FEmail)
    by (do 2 (apply bracesInHoles_fill1; [assumption|]); assumption).
  clear. induction ps as [|[s|[| |]] ps IH]; cbn [map fill1 Field_eqb render
    filled fieldOf]; try rewrite IH; reflexivity.
Qed.

Lemma filled_lacks_brace (ps : list Piece) (c : Contact) :
  bracesInHoles ps = true -> plainContact c = true ->
  lacks "{" (filled c ps) = true.
Proof.
  intros Hps Hc. pose proof (plainContact_fields c Hc) as Hfields.
  induction ps as [|[s|f] ps IH]; [reflexivity| |];
    cbn [bracesInHoles forallb filled] in Hps |- *; rewrite lacks_append.
  - apply andb_true_iff in Hps as [Hs Hps]. rewrite Hs. apply IH, Hps.
  - rewrite (IH Hps), andb_true_r. apply Hfields.
Qed.

(** ** Creating a campaign *)

Section Resolve.

Lemma selectContacts_In ids d c :
  In c (selectContacts ids d) <-> In c (contacts d) /\ In (c_id c) ids.
Proof.
  unfold selectContacts. rewrite filter_In, existsb_exists. split.
  - intros (Hin & x & Hx & Heq). apply Z.eqb_eq in Heq. subst x. auto.
  - intros (Hin & Hid). split; [exact Hin|].
    exists (c_id c). split; [exact Hid | apply Z.eqb_refl].
Qed.

Lemma selectContacts_length ids d :
  NoDup (map c_id (contacts d)) ->
  NoDup ids ->
  (forall id, In id ids -> In id (map c_id (contacts d))) ->
  List.length (selectContacts ids d) = List.length ids.
Proof.
  intros Hkey Hids Hexist.
  rewrite <- (length_map c_id). apply Permutation_length.
  apply NoDup_Permutation.
  - apply filter_keys_distinct, Hkey.
  - exact Hids.
  - intros x. rewrite in_map_iff. split.
    + intros (c & <- & Hin). apply selectContacts_In in Hin. tauto.
    + intros Hin. pose proof (Hexist x Hin) as Hx.
      apply in_map_iff in Hx as (c & Hc & Hcin).
      exists c. split; [exact Hc|]. apply selectContacts_In.
      rewrite Hc. auto.
Qed.

Lemma insertMessages_length campaignId message rows :
  forall seq,
    List.length (insertMessages campaignId message seq rows)
    = List.length rows.
Proof.
  induction rows as [|c rows IH]; intros seq; [reflexivity|].
  cbn [insertMessages List.length]. rewrite IH. reflexivity.
Qed.

Lemma insertMessages_rows campaignId message (P : Contact -> Prop) rows :
  forall seq,
    (forall c, In c rows -> P c) ->
    Forall2
      (fun c m =>
         P c /\ m_contact_id m = c_id c /\ m_campaign_id m = campaignId /\
         m_status m = pending /\ m_phone m = c_phone c /\
         m_message m = personalize message c)
      rows (insertMessages campaignId message seq rows).
Proof.
  induction rows as [|c rows IH]; intros seq HP; [constructor|].
  cbn [insertMessages]. constructor.
  - cbn. repeat split. apply HP. left. reflexivity.
  - apply IH. intros c' Hin. apply HP. right. exact Hin.
Qed.

End Resolve.

(** C6 does not hold as stated.  A contact whose name is itself the
    text of the placeholder has that field populated, and the placeholder
    stands in the body of its message.  So it does for a contact named
    [name] when the template wraps the placeholder in a second pair of
    braces, and for a contact whose name is the pattern [$&], which
    [replace] expands to the matched text. *)
Lemma token_remains_in_body :
  c_name odd = Some "{name}" /\
  map m_message (messages (db (snd (createCampaign hello sampleOdd))))
  = ["Hi {name}"] /\
  c_name named = Some "name" /\
  map m_message (messages (db (snd (createCampaign doubled sampleOdd))))
  = ["Hi {name}"] /\
  c_name dollar = Some "$&" /\
  map m_message (messages (db (snd (createCampaign helloDollar sampleOdd))))
  = ["Hi {name}"] /\
  JS.includes "{name}" "Hi {name}" = true.
Proof. repeat split. Qed.

(** C6, amended. When a campaign is created with a list of N distinct ids
    of existing contacts, exactly N message rows are added, one for each
    selected contact in the order of the contacts table, each pending,
    with the campaign's id, the contact's id and phone number, and the
    body that the three replacements make of the template for that
    contact.  When every open brace of the template belongs to a
    placeholder and those of the contact's name, phone and email that are
    present hold no open brace and no dollar sign, that body is the
    template with every placeholder replaced by the contact's value (by
    the text [null] for a field that is absent), and none of the three
    placeholders occurs in it. *)
Theorem createCampaign_resolves_recipients :
  forall req w,
    NoDup (map c_id (contacts (db w))) ->
    NoDup (q_contacts req) ->
    (forall id, In id (q_contacts req) ->
                In id (map c_id (contacts (db w)))) ->
    exists new,
      messages (db (snd (createCampaign req w)))
      = (messages (db w) ++ new)%list /\
      List.length new = List.length (q_contacts req) /\
      Forall2
        (fun c m =>
           (In c (contacts (db w)) /\ In (c_id c) (q_contacts req)) /\
           m_contact_id m = c_id c /\
           m_campaign_id m = campaign_seq (db w) + 1 /\
           m_status m = pending /\
           m_phone m = c_phone c /\
           m_message m = personalize (q_message req) c /\
           forall ps,
             q_message req = render ps ->
             bracesInHoles ps = true ->
             plainContact c = true ->
             m_message m = filled c ps /\
             forall f, JS.includes (placeholder f) (m_message m) = false)
        (selectContacts (q_contacts req) (db w)) new.
Proof.
  intros req w Hkey Hids Hexist.
  exists (insertMessages (campaign_seq (db w) + 1) (q_message req)
            (message_seq (db w)) (selectContacts (q_contacts req) (db w))).
  split; [reflexivity|]. split.
  - rewrite insertMessages_length. apply selectContacts_length; assumption.
  - eapply Forall2_impl;
      [|apply insertMessages_rows
          with (P := fun c => In c (contacts (db w))
                              /\ In (c_id c) (q_contacts req));
        intros c Hin; apply selectContacts_In, Hin].
    intros c m (HP & Hcid & Hk & Hst & Hph & Hbody).
    repeat (split; [assumption|]).
    intros ps Htemplate Hps Hc.
    assert (Hfilled : m_message m = filled c ps)
      by (rewrite Hbody, Htemplate; apply personalize_filled; assumption).
    split; [exact Hfilled|]. intros f. rewrite Hfilled.
    destruct (placeholder_shape f) as (p & -> & _).
    apply lacks_includes, filled_lacks_brace; assumption.
Qed.

Ltac distinct_ids :=
  repeat (constructor;
          [ let H := fresh in
            cbn; intros H;
            repeat (destruct H as [H|H]; [discriminate H|]); exact H
          | ]);
  constructor.

Lemma createCampaign_resolves_recipients_witness :
  c_email scenarioAna = None /\ c_email scenarioLeo = None /\
  exists new,
    messages (db (snd (createCampaign greeting sampleScenario))) = new /\
    List.length new = 2%nat /\
    map m_message new
    = ["Hi Ana, your number is +1555"; "Hi Leo, your number is +1556"] /\
    map m_status new = [pending; pending] /\
    map m_phone new = [Some "+1555"; Some "+1556"].
Proof.
  split; [reflexivity|]. split; [reflexivity|].
  assert (Hkey : NoDup (map c_id (contacts (db sampleScenario))))
    by (cbn; distinct_ids).
  assert (Hids : NoDup (q_contacts greeting)) by (cbn; distinct_ids).
  assert (Hexist : forall id, In id (q_contacts greeting) ->
                              In id (map c_id (contacts (db sampleScenario))))
    by (cbn; tauto).
  destruct (createCampaign_resolves_recipients greeting sampleScenario
              Hkey Hids Hexist) as (new & Hnew & Hlen & Hrows).
  exists new. split; [exact Hnew|]. split; [exact Hlen|].
  change (selectContacts (q_contacts greeting) (db sampleScenario))
    with [scenarioAna; scenarioLeo] in Hrows.
  inversion Hrows as [|c1 m1 r1 n1 Hana Hrows1]; subst.
  inversion Hrows1 as [|c2 m2 r2 n2 Hleo Hrows2]; subst.
  inversion Hrows2; subst.
  destruct Hana as (_ & _ & _ & Hs1 & Hp1 & _ & Hana).
  destruct Hleo as (_ & _ & _ & Hs2 & Hp2 & _ & Hleo).
  cbn [map]. rewrite Hs1, Hs2, Hp1, Hp2.
  destruct (Hana [Text "Hi "; Hole FName; Text ", your number is ";
                  Hole FPhone] eq_refl eq_refl eq_refl) as (-> & _).
  destruct (Hleo [Text "Hi "; Hole FName; Text ", your number is ";
                  Hole FPhone] eq_refl eq_refl eq_refl) as (-> & _).
  repeat split.
Defined.

(** ** Passes that do not overlap *)

Section Consistency.

Lemma settles_refl st : settles st st.
Proof. left. reflexivity. Qed.

Lemma settles_trans a b c : settles a b -> settles b c -> settles a c.
Proof.
  unfold settles. intros [Hab|Ha] [Hbc|Hb]; subst; auto.
Qed.

Lemma descends_refl ms seq : descends ms seq ms seq.
Proof.
  split; [lia|]. intros m Hin. left. exists m.
  repeat split; [exact Hin | apply settles_refl].
Qed.

Lemma descends_trans ms0 s0 ms1 s1 ms2 s2 :
  descends ms0 s0 ms1 s1 -> descends ms1 s1 ms2 s2 ->
  descends ms0 s0 ms2 s2.
Proof.
  intros [Hs01 H01] [Hs12 H12]. split; [lia|].
  intros m2 Hin2. destruct (H12 m2 Hin2) as [(m1 & Hin1 & Hid1 & Hst1)|Hnew].
  - destruct (H01 m1 Hin1) as [(m0 & Hin0 & Hid0 & Hst0)|Hnew].
    + left. exists m0. repeat split; [exact Hin0 | congruence |].
      eapply settles_trans; eassumption.
    + right. lia.
  - right. lia.
Qed.

Lemma queuedOf_app l1 l2 : queuedOf (l1 ++ l2) = (queuedOf l1 ++ queuedOf l2)%list.
Proof. apply flat_map_app. Qed.

Lemma queuedOf_split l1 slot l2 :
  queuedOf (l1 ++ slot :: l2)
  = (queuedOf l1 ++ queueIds slot ++ queuedOf l2)%list.
Proof. rewrite queuedOf_app. reflexivity. Qed.

Lemma In_queuedOf x slots :
  In x (queuedOf slots) <->
  exists t q, In (Some t) slots /\ In q (t_messages t) /\ m_id q = x.
Proof.
  unfold queuedOf. rewrite in_flat_map. split.
  - intros ([t|] & Hslot & Hx); [|contradiction].
    cbn in Hx. apply in_map_iff in Hx as (q & Hq & Hin).
    exists t, q. auto.
  - intros (t & q & Hslot & Hq & Hid). exists (Some t).
    split; [exact Hslot|]. cbn. rewrite <- Hid. apply in_map, Hq.
Qed.

Lemma busy_idle id slots : busy id slots = false -> idle id slots.
Proof.
  intros Hbusy t Hin Hid.
  destruct (t_messages t) as [|q rest] eqn:Hq; [reflexivity|].
  exfalso. assert (Hyes : busy id slots = true).
  { apply existsb_exists. exists (Some t). split; [exact Hin|].
    rewrite Hid, Z.eqb_refl, Hq. reflexivity. }
  congruence.
Qed.

Variable ms : list Message.
Variable seq : Z.

Lemma consistent_drop l1 slot l2 :
  consistent ms seq (l1 ++ slot :: l2) -> consistent ms seq (l1 ++ l2).
Proof.
  intros (Hids & Hbound & Hqueue & Hpending).
  split; [exact Hids|]. split; [exact Hbound|]. split.
  - rewrite queuedOf_split in Hqueue. rewrite queuedOf_app.
    eapply remove_between, Hqueue.
  - intros t q Hslot Hq. apply (Hpending t q); [|exact Hq].
    apply in_app_iff. apply in_app_iff in Hslot as [Hslot|Hslot];
      [left | right; right]; exact Hslot.
Qed.

Lemma consistent_none l1 l2 :
  consistent ms seq (l1 ++ l2) -> consistent ms seq (l1 ++ None :: l2).
Proof.
  intros (Hids & Hbound & Hqueue & Hpending).
  split; [exact Hids|]. split; [exact Hbound|]. split.
  - rewrite queuedOf_split. rewrite queuedOf_app in Hqueue. exact Hqueue.
  - intros t q Hslot Hq. apply (Hpending t q); [|exact Hq].
    apply in_app_iff. apply in_app_iff in Hslot as [Hslot|[Hslot|Hslot]];
      [left; exact Hslot | discriminate Hslot | right; exact Hslot].
Qed.

(** A pass begun over a campaign on which no pass is busy. *)
Lemma consistent_begin id n s f next l1 l2 :
  consistent ms seq (l1 ++ l2) -> idle id (l1 ++ l2) ->
  consistent ms seq
    (l1 ++ Some (mkTask id (filter (isPendingOf id) ms) n s f next) :: l2).
Proof.
  intros (Hids & Hbound & Hqueue & Hpending) Hidle.
  assert (Hrow : forall q, In q (filter (isPendingOf id) ms) ->
            In q ms /\ m_campaign_id q = id /\ m_status q = pending).
  { intros q Hq. apply filter_In in Hq as (Hq & Hpend).
    unfold isPendingOf in Hpend. apply andb_true_iff in Hpend as (Hc & Hst).
    apply Z.eqb_eq in Hc. destruct (m_status q); try discriminate Hst. auto. }
  split; [exact Hids|]. split; [exact Hbound|]. split.
  - rewrite queuedOf_split. cbn [queueIds t_messages].
    rewrite queuedOf_app in Hqueue. apply insert_between.
    + exact Hqueue.
    + apply filter_keys_distinct, Hids.
    + intros x Hnew Hold. rewrite <- queuedOf_app in Hold.
      apply In_queuedOf in Hold as (t & q & Hslot & Hq & Hx).
      apply in_map_iff in Hnew as (m & Hm & Hin).
      destruct (Hrow m Hin) as (Hinm & Hcamp & _).
      destruct (Hpending t q Hslot Hq) as (_ & Hsame).
      assert (Hmq : m_id m = m_id q) by congruence.
      destruct (Hsame m Hinm Hmq) as (_ & Hcamp').
      assert (Hnil : t_messages t = []) by (apply Hidle; congruence).
      rewrite Hnil in Hq. contradiction.
  - intros t q Hslot Hq.
    apply in_app_iff in Hslot as [Hslot|[Hslot|Hslot]].
    + apply (Hpending t q); [apply in_app_iff; left; exact Hslot | exact Hq].
    + injection Hslot as <-. cbn in Hq |- *.
      destruct (Hrow q Hq) as (Hinq & Hcamp & Hst).
      split; [apply Hbound, Hinq|]. intros m Hm Hmq.
      rewrite (key_injective m_id ms m q Hids Hm Hinq Hmq). auto.
    + apply (Hpending t q); [apply in_app_iff; right; exact Hslot | exact Hq].
Qed.

End Consistency.

Section Moves.

Variable ms : list Message.
Variable seq : Z.

(** The [UPDATE] of the row a pass has just attempted. *)
Lemma consistent_attempt (upd : Message -> Message) t q rest n s f l1 l2 :
  (forall m, m_id (upd m) = m_id m) ->
  (forall m, m_campaign_id (upd m) = m_campaign_id m) ->
  consistent ms seq (l1 ++ Some t :: l2) ->
  t_messages t = q :: rest ->
  let ms' := map (fun m => if m_id m =? m_id q then upd m else m) ms in
  consistent ms' seq
    (l1 ++ Some (mkTask (t_campaign t) rest n s f (t_then t)) :: l2) /\
  descends ms seq ms' seq.
Proof.
  intros Hupd_id Hupd_campaign (Hids & Hbound & Hqueue & Hpending) Ht ms'.
  assert (Hslot_t : In (Some t) (l1 ++ Some t :: l2))
    by (apply in_app_iff; right; left; reflexivity).
  assert (Hq_t : In q (t_messages t)) by (rewrite Ht; left; reflexivity).
  assert (Hrow_id : forall m,
            m_id (if m_id m =? m_id q then upd m else m) = m_id m)
    by (intros m; destruct (m_id m =? m_id q); [apply Hupd_id | reflexivity]).
  rewrite queuedOf_split in Hqueue. cbn [queueIds] in Hqueue.
  rewrite Ht in Hqueue. cbn [map app] in Hqueue.
  pose proof (NoDup_remove_1 _ _ _ Hqueue) as Hqueue'.
  pose proof (NoDup_remove_2 _ _ _ Hqueue) as Hfresh.
  split; [split; [|split; [|split]]|].
  - subst ms'. rewrite map_map.
    rewrite (map_ext _ m_id Hrow_id). exact Hids.
  - intros m' Hin. apply in_map_iff in Hin as (m & <- & Hin).
    rewrite Hrow_id. apply Hbound, Hin.
  - rewrite queuedOf_split. exact Hqueue'.
  - intros t' q' Hslot Hq'.
    assert (Hold : exists t0, In (Some t0) (l1 ++ Some t :: l2) /\
                              In q' (t_messages t0) /\
                              t_campaign t0 = t_campaign t').
    { apply in_app_iff in Hslot as [Hslot|[Hslot|Hslot]].
      - exists t'. repeat split; [apply in_app_iff; left; exact Hslot | exact Hq'].
      - injection Hslot as <-. cbn in Hq'. exists t.
        repeat split; [exact Hslot_t | rewrite Ht; right; exact Hq'].
      - exists t'. repeat split;
          [apply in_app_iff; right; right; exact Hslot | exact Hq']. }
    destruct Hold as (t0 & Hslot0 & Hq0 & Hcamp0).
    destruct (Hpending t0 q' Hslot0 Hq0) as (Hle & Hsame).
    split; [exact Hle|]. intros m' Hin Hid.
    apply in_map_iff in Hin as (m & <- & Hin). rewrite Hrow_id in Hid.
    assert (Hother : (m_id m =? m_id q) = false).
    { apply Z.eqb_neq. intros Hmq. apply Hfresh.
      change (map m_id rest)
        with (queueIds (Some (mkTask (t_campaign t) rest n s f (t_then t)))).
      rewrite <- Hmq, Hid, <- queuedOf_split. apply In_queuedOf.
      exists t', q'. auto. }
    rewrite Hother, <- Hcamp0. apply Hsame; assumption.
  - split; [lia|]. intros m' Hin. left.
    apply in_map_iff in Hin as (m & <- & Hin). exists m.
    split; [exact Hin|]. split; [symmetry; apply Hrow_id|].
    destruct (m_id m =? m_id q) eqn:Hmq; [|apply settles_refl].
    apply Z.eqb_eq in Hmq. right.
    apply (proj2 (Hpending t q Hslot_t Hq_t) m Hin Hmq).
Qed.

Lemma insertMessages_ids campaignId message rows :
  forall from m,
    In m (insertMessages campaignId message from rows) ->
    from < m_id m <= from + Z.of_nat (List.length rows).
Proof.
  induction rows as [|c rows IH]; intros from m Hin; [contradiction|].
  cbn [insertMessages List.length] in Hin |- *. rewrite Nat2Z.inj_succ.
  destruct Hin as [<-|Hin]; [cbn; lia|].
  specialize (IH _ _ Hin). lia.
Qed.

Lemma insertMessages_distinct campaignId message rows :
  forall from, NoDup (map m_id (insertMessages campaignId message from rows)).
Proof.
  induction rows as [|c rows IH]; intros from; [constructor|].
  cbn [insertMessages map m_id]. constructor; [|apply IH].
  intros Hin. apply in_map_iff in Hin as (m & Hid & Hin).
  apply insertMessages_ids in Hin. lia.
Qed.

(** The rows that [POST /api/campaigns] adds. *)
Lemma consistent_create campaignId message rows slots :
  consistent ms seq slots ->
  let ms' := (ms ++ insertMessages campaignId message seq rows)%list in
  let seq' := seq + Z.of_nat (List.length rows) in
  consistent ms' seq' slots /\ descends ms seq ms' seq'.
Proof.
  intros (Hids & Hbound & Hqueue & Hpending) ms' seq'.
  split; [split; [|split; [|split]]|].
  - subst ms'. rewrite map_app. apply NoDup_app.
    + exact Hids.
    + apply insertMessages_distinct.
    + intros x Hold Hnew.
      apply in_map_iff in Hold as (m & <- & Hm).
      apply in_map_iff in Hnew as (m' & Hid & Hm').
      apply Hbound in Hm. apply insertMessages_ids in Hm'. lia.
  - intros m Hin. apply in_app_iff in Hin as [Hin|Hin].
    + apply Hbound in Hin. subst seq'. lia.
    + apply insertMessages_ids in Hin. subst seq'. lia.
  - exact Hqueue.
  - intros t q Hslot Hq. destruct (Hpending t q Hslot Hq) as (Hle & Hsame).
    split; [subst seq'; lia|]. intros m Hin Hid.
    apply in_app_iff in Hin as [Hin|Hin]; [apply Hsame; assumption|].
    apply insertMessages_ids in Hin. lia.
  - split; [subst seq'; lia|]. intros m Hin.
    apply in_app_iff in Hin as [Hin|Hin].
    + left. exists m. repeat split; [exact Hin | apply settles_refl].
    + right. apply insertMessages_ids in Hin. lia.
Qed.

(** The rows that [DELETE /api/campaigns/:id] leaves. *)
Lemma consistent_delete (keep : Message -> bool) slots :
  consistent ms seq slots ->
  consistent (filter keep ms) seq slots /\
  descends ms seq (filter keep ms) seq.
Proof.
  intros (Hids & Hbound & Hqueue & Hpending).
  split; [split; [|split; [|split]]|].
  - apply filter_keys_distinct, Hids.
  - intros m Hin. apply filter_In in Hin as (Hin & _). apply Hbound, Hin.
  - exact Hqueue.
  - intros t q Hslot Hq. destruct (Hpending t q Hslot Hq) as (Hle & Hsame).
    split; [exact Hle|]. intros m Hin. apply filter_In in Hin as (Hin & _).
    apply Hsame, Hin.
  - split; [lia|]. intros m Hin. apply filter_In in Hin as (Hin & _).
    left. exists m. repeat split; [exact Hin | apply settles_refl].
Qed.

End Moves.

Section Steps.

Lemma attemptMessage_db campaignId total msg ch counters w :
  exists upd,
    (forall m, m_id (upd m) = m_id m) /\
    (forall m, m_campaign_id (upd m) = m_campaign_id m) /\
    messages (db (snd (attemptMessage campaignId total msg ch counters w)))
    = map (fun m => if m_id m =? m_id msg then upd m else m)
        (messages (db w)) /\
    message_seq (db (snd (attemptMessage campaignId total msg ch counters w)))
    = message_seq (db w) /\
    tasks (snd (attemptMessage campaignId total msg ch counters w)) = tasks w.
Proof.
  destruct counters as [s f]. unfold attemptMessage.
  destruct (trySend campaignId msg ch w) as [call|e].
  - exists (sentRow (now w)). repeat split.
  - exists (failedRow e). repeat split.
Qed.

Lemma exclusive_idle w e id rest :
  exclusive w e = true -> begins w e = id :: rest -> idle id (tasks w).
Proof.
  unfold exclusive. intros Hex Hbegins. rewrite Hbegins in Hex.
  cbn [forallb] in Hex. apply andb_true_iff in Hex as (Hidle & _).
  apply busy_idle, negb_true_iff, Hidle.
Qed.

Lemma idle_drop id l1 (slot : option Task) l2 :
  idle id (l1 ++ slot :: l2) -> idle id (l1 ++ l2).
Proof.
  intros Hidle t Hin. apply Hidle. apply in_app_iff.
  apply in_app_iff in Hin as [Hin|Hin]; [left | right; right]; exact Hin.
Qed.

Lemma begin_consistent id next w :
  Consistent w -> idle id (tasks w) ->
  Consistent
    (with_tasks (tasks (snd (startPass id next w))
                 ++ [Some (fst (startPass id next w))])
       (snd (startPass id next w))).
Proof.
  intros Hw Hidle. unfold Consistent in *. cbn.
  apply consistent_begin; rewrite app_nil_r; assumption.
Qed.

Lemma step_consistent w e :
  Consistent w -> exclusive w e = true ->
  Consistent (step w e) /\
  descends (messages (db w)) (message_seq (db w))
    (messages (db (step w e))) (message_seq (db (step w e))).
Proof.
  intros Hw Hex. destruct e as [req|id|id|id| |i ch| | |dt].
  - apply consistent_create, Hw.
  - split; [|apply descends_refl].
    apply (begin_consistent id [] w Hw).
    eapply exclusive_idle; [exact Hex | reflexivity].
  - split; [exact Hw | apply descends_refl].
  - apply consistent_delete, Hw.
  - cbn [step]. unfold cronTick.
    destruct (map k_id (selectDue (now w) (db w))) as [|id next] eqn:Hdue.
    + split; [exact Hw | apply descends_refl].
    + split; [|apply descends_refl].
      apply (begin_consistent id next w Hw).
      eapply exclusive_idle; [exact Hex|]. cbn [begins]. rewrite Hdue.
      reflexivity.
  - cbn [step].
    destruct (nth_error (tasks w) i) as [[t|]|] eqn:Hnth;
      try (split; [exact Hw | apply descends_refl]).
    unfold proceedTask.
    destruct (t_messages t) as [|msg rest] eqn:Hqueue.
    + (* the pass is over *)
      unfold completePass. cbn [fst snd].
      destruct (t_then t) as [|id next] eqn:Hthen.
      * split; [|apply descends_refl].
        destruct (setNth_split _ _ _ None Hnth) as (l1 & l2 & Htasks & Hset).
        unfold Consistent in *. cbn. rewrite Hset. rewrite Htasks in Hw.
        apply consistent_none. eapply consistent_drop, Hw.
      * split; [|apply descends_refl].
        assert (Hidle : idle id (tasks w)).
        { eapply exclusive_idle; [exact Hex|]. cbn [begins].
          rewrite Hnth, Hqueue, Hthen. reflexivity. }
        unfold Consistent in *. cbn.
        match goal with
        | |- context [setNth i ?slot (tasks w)] =>
            destruct (setNth_split _ _ _ slot Hnth)
              as (l1 & l2 & Htasks & Hset)
        end.
        rewrite Hset. rewrite Htasks in Hw, Hidle.
        apply consistent_begin.
        -- eapply consistent_drop, Hw.
        -- eapply idle_drop, Hidle.
    + (* the next row *)
      destruct (attemptMessage_db (t_campaign t) (t_total t) msg ch
                  (t_sent t, t_failed t) w)
        as (upd & Hid & Hcamp & Hms & Hseq & Htasks').
      destruct (attemptMessage (t_campaign t) (t_total t) msg ch
                  (t_sent t, t_failed t) w) as [[s f] w'].
      cbn [fst snd] in Hms, Hseq, Htasks'.
      unfold Consistent in *. cbn. rewrite Hms, Hseq, Htasks'.
      match goal with
      | |- context [setNth i ?slot (tasks w)] =>
          destruct (setNth_split _ _ _ slot Hnth) as (l1 & l2 & Htasks & Hset)
      end.
      rewrite Hset. rewrite Htasks in Hw.
      apply consistent_attempt; assumption.
  - split; [exact Hw | apply descends_refl].
  - split; [exact Hw | apply descends_refl].
  - split; [exact Hw | apply descends_refl].
Qed.

End Steps.

Lemma run_app w es1 es2 : run w (es1 ++ es2) = run (run w es1) es2.
Proof. apply fold_left_app. Qed.

Lemma exclusiveRun_app es1 :
  forall w es2,
    exclusiveRun w (es1 ++ es2)
    = exclusiveRun w es1 && exclusiveRun (run w es1) es2.
Proof.
  induction es1 as [|e es1 IH]; intros w es2; [reflexivity|].
  cbn [app exclusiveRun]. rewrite IH, andb_assoc. reflexivity.
Qed.

Lemma run_consistent es :
  forall w,
    Consistent w -> exclusiveRun w es = true ->
    Consistent (run w es) /\
    descends (messages (db w)) (message_seq (db w))
      (messages (db (run w es))) (message_seq (db (run w es))).
Proof.
  induction es as [|e es IH]; intros w Hw Hex.
  - split; [exact Hw | apply descends_refl].
  - cbn [exclusiveRun] in Hex. apply andb_true_iff in Hex as (He & Hes).
    destruct (step_consistent w e Hw He) as (Hw1 & Hd1).
    destruct (IH (step w e) Hw1 Hes) as (Hw2 & Hd2).
    split; [exact Hw2|]. eapply descends_trans; eassumption.
Qed.

(** C8 does not hold as stated: when a campaign is started a second
    time while its first pass is suspended, both passes hold the row of
    message 2; the first marks it sent, the second, whose send is
    rejected, then marks it failed. *)
Lemma sent_message_marked_failed :
  messageStatuses (run sampleWorld startedTwice) = [(1, sent); (2, sent)] /\
  messageStatuses (run sampleWorld (startedTwice ++ [Proceed 1 rejects]))
  = [(1, sent); (2, failed)].
Proof. split; reflexivity. Qed.

(** C8, amended. In a run of the server in which no pass is begun over a
    campaign while a suspended pass over that campaign still has rows
    left, the status of a message only goes from 'pending' to 'sent' or
    from 'pending' to 'failed': whatever events follow (create, start,
    pause, delete, cron tick, continuation of a pass, change of the
    client's readiness), a row that is 'sent' or 'failed' keeps its
    status, and no row goes back to 'pending'. *)
Theorem message_status_settles_without_overlap :
  forall w0 es1 es2,
    tasks w0 = [] ->
    NoDup (map m_id (messages (db w0))) ->
    (forall m, In m (messages (db w0)) -> m_id m <= message_seq (db w0)) ->
    exclusiveRun w0 (es1 ++ es2) = true ->
    forall m m',
      In m (messages (db (run w0 es1))) ->
      In m' (messages (db (run w0 (es1 ++ es2)))) ->
      m_id m' = m_id m ->
      m_status m' = m_status m \/ m_status m = pending.
Proof.
  intros w0 es1 es2 Hnone Hids Hbound Hex m m' Hm Hm' Hid.
  rewrite exclusiveRun_app in Hex. apply andb_true_iff in Hex as (Hex1 & Hex2).
  assert (Hw0 : Consistent w0).
  { unfold Consistent. rewrite Hnone.
    split; [exact Hids|]. split; [exact Hbound|]. split; [constructor|].
    intros t q []. }
  destruct (run_consistent es1 w0 Hw0 Hex1) as (Hw1 & _).
  destruct (run_consistent es2 _ Hw1 Hex2) as (_ & _ & Hdesc).
  rewrite run_app in Hm'.
  destruct Hw1 as (Hids1 & Hbound1 & _).
  destruct (Hdesc m' Hm') as [(m1 & Hm1 & Hid1 & Hsettles)|Hnew].
  - assert (m1 = m) as ->
        by (apply (key_injective m_id _ _ _ Hids1 Hm1 Hm); congruence).
    exact Hsettles.
  - apply Hbound1 in Hm. lia.
Qed.

Lemma message_status_settles_without_overlap_witness :
  messageStatuses (run sampleWorld firstHalf) = [(1, sent); (2, pending)] /\
  messageStatuses (run sampleWorld (firstHalf ++ secondHalf))
  = [(1, sent); (2, failed)] /\
  forall m m',
    In m (messages (db (run sampleWorld firstHalf))) ->
    In m' (messages (db (run sampleWorld (firstHalf ++ secondHalf)))) ->
    m_id m' = m_id m ->
    m_status m' = m_status m \/ m_status m = pending.
Proof.
  split; [reflexivity|]. split; [reflexivity|].
  apply message_status_settles_without_overlap.
  - reflexivity.
  - constructor.
  - intros m [].
  - reflexivity.
Defined.

(** ** Passes that interleave with other events *)

Lemma startPass_balanced id next w :
  balanced (Some (fst (startPass id next w))).
Proof. cbn. lia. Qed.

(** Whatever events interleave with the passes, the counters of every
    suspended pass account for the rows it has gone through, and every
    result that a pass has resolved with has [sent + failed = total]. *)
Lemma step_balanced w e :
  Forall balanced (tasks w) -> Forall balancedResult (results w) ->
  Forall balanced (tasks (step w e)) /\
  Forall balancedResult (results (step w e)).
Proof.
  intros Htasks Hres. destruct e as [req|id|id|id| |i ch| | |dt];
    try (split; assumption).
  - split; [|exact Hres]. cbn. apply Forall_app. split; [exact Htasks|].
    constructor; [cbn; lia | constructor].
  - cbn [step]. unfold cronTick.
    destruct (map k_id (selectDue (now w) (db w))) as [|id next];
      [split; assumption|].
    split; [|exact Hres]. cbn. apply Forall_app. split; [exact Htasks|].
    constructor; [cbn; lia | constructor].
  - cbn [step].
    destruct (nth_error (tasks w) i) as [[t|]|] eqn:Hnth;
      try (split; assumption).
    assert (Ht : balanced (Some t)).
    { eapply Forall_forall in Htasks; [exact Htasks|].
      eapply nth_error_In, Hnth. }
    cbn in Ht. unfold proceedTask.
    destruct (t_messages t) as [|msg rest] eqn:Hqueue.
    + unfold completePass. cbn [fst snd].
      destruct (t_then t) as [|id next]; cbn.
      * split.
        -- apply setNth_Forall; [exact Htasks | exact I].
        -- constructor; [|exact Hres]. unfold balancedResult. cbn in Ht |- *.
           lia.
      * split.
        -- apply setNth_Forall; [exact Htasks | cbn; lia].
        -- constructor; [|exact Hres]. unfold balancedResult. cbn in Ht |- *.
           lia.
    + pose proof (attemptMessage_frame (t_campaign t) (t_total t) msg ch
                    (t_sent t, t_failed t) w) as Hframe.
      destruct (attemptMessage (t_campaign t) (t_total t) msg ch
                  (t_sent t, t_failed t) w) as [[s f] w'].
      cbn zeta in Hframe. cbn [fst snd] in Hframe.
      destruct Hframe as (_ & _ & _ & Htasks' & Hres' & Hsum). cbn.
      rewrite Htasks', Hres'. split; [|exact Hres].
      apply setNth_Forall; [exact Htasks|]. cbn in Ht |- *. lia.
Qed.

(** X19. In every run of the server from a state whose suspended passes
    and resolved results add up, whatever requests, ticks and
    continuations interleave, every result a pass resolves with has
    [sent + failed = total]. *)
Lemma results_balanced es :
  forall w,
    Forall balanced (tasks w) -> Forall balancedResult (results w) ->
    Forall balancedResult (results (run w es)).
Proof.
  induction es as [|e es IH]; intros w Htasks Hres; [exact Hres|].
  destruct (step_balanced w e Htasks Hres) as (Htasks' & Hres').
  apply (IH (step w e) Htasks' Hres').
Qed.

(** X20. The attempt of a pass does not read the status of its campaign:
    a pause in between changes nothing in what the pass does next. *)
Lemma pause_invisible_to_attempt id campaignId msg ch w :
  trySend campaignId msg ch (snd (pauseCampaign id w))
  = trySend campaignId msg ch w.
Proof.
  unfold trySend, prepareCall. cbn [pauseCampaign snd with_db isClientReady db].
  destruct (negb (isClientReady w)); [reflexivity|].
  destruct (m_phone msg) as [phone|]; [|reflexivity].
  assert (Hfind :
    option_map k_media_url
      (findCampaign campaignId (updateStatus paused id (db w)))
    = option_map k_media_url (findCampaign campaignId (db w))).
  { unfold findCampaign, updateStatus. cbn [campaigns with_campaigns].
    induction (campaigns (db w)) as [|k ks IH]; [reflexivity|].
    cbn [map find].
    destruct (k_id k =? id); cbn [setStatus k_id];
      destruct (k_id k =? campaignId); try exact IH; reflexivity. }
  destruct (findCampaign campaignId (updateStatus paused id (db w)))
    as [k'|], (findCampaign campaignId (db w)) as [k|];
    try discriminate Hfind; [|reflexivity].
  injection Hfind as ->. reflexivity.
Qed.

(** ** A pass that no other event interrupts *)

Section Uninterrupted.

Lemma attemptMessage_with_tasks ts campaignId total msg ch counters w :
  attemptMessage campaignId total msg ch counters (with_tasks ts w)
  = (fst (attemptMessage campaignId total msg ch counters w),
     with_tasks ts (snd (attemptMessage campaignId total msg ch counters w))).
Proof.
  destruct counters as [s f]. unfold attemptMessage, trySend, prepareCall.
  cbn [with_tasks isClientReady db now].
  destruct (negb (isClientReady w)); [reflexivity|].
  destruct (m_phone msg); [|reflexivity].
  destruct (findCampaign campaignId (db w)) as [k|]; [|reflexivity].
  destruct (JS.truthy (k_media_url k)), (fromUrl_fails ch),
    (sendMessage_fails ch); reflexivity.
Qed.

Lemma sendLoop_with_tasks ts campaignId total msgs :
  forall chs counters w,
    sendLoop campaignId total msgs chs counters (with_tasks ts w)
    = (fst (sendLoop campaignId total msgs chs counters w),
       with_tasks ts (snd (sendLoop campaignId total msgs chs counters w))).
Proof.
  induction msgs as [|msg rest IH]; intros chs counters w; [reflexivity|].
  cbn [sendLoop]. rewrite attemptMessage_with_tasks.
  destruct (attemptMessage campaignId total msg (hd delivers chs) counters w)
    as [counters' w'].
  cbn [fst snd]. apply IH.
Qed.

(** The transitions of one suspended pass, taken one after the other,
    are the loop of [sendBulkMessages]. *)
Lemma proceed_is_sendLoop msgs :
  forall chs t w i,
    nth_error (tasks w) i = Some (Some t) ->
    t_messages t = msgs ->
    List.length chs = List.length msgs ->
    let r := sendLoop (t_campaign t) (t_total t) msgs chs
               (t_sent t, t_failed t) w in
    run w (map (Proceed i) chs)
    = with_tasks
        (setNth i
           (Some (mkTask (t_campaign t) [] (t_total t) (fst (fst r))
                    (snd (fst r)) (t_then t)))
           (tasks w))
        (snd r).
Proof.
  induction msgs as [|msg rest IH]; intros chs t w i Hnth Hqueue Hlen.
  - destruct chs; [|discriminate Hlen]. cbn.
    destruct t as [c q n s f nx]. cbn in Hqueue |- *. subst q.
    rewrite (setNth_same _ _ _ Hnth). destruct w; reflexivity.
  - destruct chs as [|ch chs]; [discriminate Hlen|].
    injection Hlen as Hlen. cbn [map run fold_left step].
    rewrite Hnth. unfold proceedTask. rewrite Hqueue.
    cbn [sendLoop hd tl].
    pose proof (attemptMessage_frame (t_campaign t) (t_total t) msg ch
                  (t_sent t, t_failed t) w) as Hframe.
    destruct (attemptMessage (t_campaign t) (t_total t) msg ch
                (t_sent t, t_failed t) w) as [[s f] w1].
    cbn zeta in Hframe. cbn [fst snd] in Hframe.
    destruct Hframe as (_ & _ & _ & Htasks & _).
    set (t1 := mkTask (t_campaign t) rest (t_total t) s f (t_then t)).
    set (w2 := with_tasks (setNth i (Some t1) (tasks w1)) w1).
    assert (Hnth2 : nth_error (tasks w2) i = Some (Some t1)).
    { subst w2. cbn [with_tasks tasks]. rewrite Htasks.
      eapply nth_error_setNth, Hnth. }
    specialize (IH chs t1 w2 i Hnth2 eq_refl Hlen).
    cbn zeta in IH |- *. fold (run w2 (map (Proceed i) chs)). rewrite IH.
    subst w2 t1. cbn [t_campaign t_total t_sent t_failed t_then].
    rewrite sendLoop_with_tasks. cbn [fst snd with_tasks tasks].
    rewrite setNth_setNth, Htasks. reflexivity.
Qed.

(** X21. A start followed by the transitions of its pass alone does to the
    database, to the calls of the transport and to the emitted events
    what [sendBulkMessages] does after the [UPDATE] of the handler, and
    resolves with the same result. *)
Lemma uninterrupted_pass id chs last w :
  List.length chs = List.length (selectPending id (db w)) ->
  let i := List.length (tasks w) in
  let w1 := with_db (updateStatus running id (db w)) w in
  let w' := run w (Start id :: map (Proceed i) (chs ++ [last])) in
  db w' = db (snd (sendBulkMessages id chs w1)) /\
  sendLog w' = sendLog (snd (sendBulkMessages id chs w1)) /\
  emitted w' = emitted (snd (sendBulkMessages id chs w1)) /\
  results w' = (id, fst (sendBulkMessages id chs w1)) :: results w.
Proof.
  intros Hlen i w1 w'. subst w'.
  cbn [run fold_left step startCampaign startPass snd].
  fold w1.
  set (t := mkTask id (selectPending id (db w1))
              (List.length (selectPending id (db w1))) O O []).
  set (w2 := with_tasks (tasks w1 ++ [Some t]) w1).
  fold (run w2 (map (Proceed i) (chs ++ [last]))).
  rewrite map_app, run_app.
  assert (Hnth : nth_error (tasks w2) i = Some (Some t))
    by (subst w2 i; cbn [with_tasks tasks w1 with_db]; apply nth_error_last).
  rewrite (proceed_is_sendLoop (selectPending id (db w1)) chs t w2 i Hnth
             eq_refl Hlen).
  cbn [t_campaign t_total t_sent t_failed t_then t].
  subst w2. rewrite sendLoop_with_tasks. cbn [fst snd with_tasks tasks].
  unfold sendBulkMessages.
  pose proof (sendLoop_frame id (List.length (selectPending id (db w1)))
                (selectPending id (db w1)) chs (O, O) w1) as Hframe.
  destruct (sendLoop id (List.length (selectPending id (db w1)))
              (selectPending id (db w1)) chs (O, O) w1) as [[s f] w3].
  cbn zeta in Hframe. cbn [fst snd] in Hframe.
  destruct Hframe as (_ & _ & _ & Htasks & Hres & _).
  cbn [map run fold_left step with_tasks tasks].
  assert (Hlast : nth_error (tasks w1 ++ [Some t]) i = Some (Some t))
    by apply nth_error_last.
  rewrite (nth_error_setNth _ _ _ _ Hlast).
  cbn. rewrite Hres. repeat split.
Qed.

End Uninterrupted.

(* ================================================================== *)
(** * Further properties of the server *)
(* ================================================================== *)

(** ** Addresses and templates *)

Lemma removeNonDigits_append (s t : string) :
  JS.removeNonDigits (s ++ t)
  = JS.removeNonDigits s ++ JS.removeNonDigits t.
Proof.
  induction s as [|c s IH]; [reflexivity|].
  cbn [append JS.removeNonDigits]. destruct (JS.isDigit c); cbn [append];
    rewrite IH; reflexivity.
Qed.

Lemma removeNonDigits_digits (s : string) :
  allDigits s = true -> JS.removeNonDigits s = s.
Proof.
  induction s as [|c s IH]; [reflexivity|].
  cbn [allDigits JS.removeNonDigits]. intros [Hc Hs]%andb_true_iff.
  rewrite Hc, (IH Hs). reflexivity.
Qed.

Lemma append_empty_r (s : string) : s ++ EmptyString = s.
Proof.
  induction s as [|c s IH]; [reflexivity|]. cbn. rewrite IH. reflexivity.
Qed.

(** X1. The address of a phone number is a fixed point of the
    normalisation: an address that already ends in [@c.us] is normalised
    to itself, and its digits are those of the number.  A number without
    any digit becomes the bare suffix. *)
Theorem formatPhone_idempotent :
  forall phone,
    formatPhone (formatPhone phone) = formatPhone phone /\
    JS.removeNonDigits (formatPhone phone) = JS.removeNonDigits phone /\
    (JS.removeNonDigits phone = EmptyString -> formatPhone phone = "@c.us").
Proof.
  intros phone.
  assert (Hdigits : JS.removeNonDigits (formatPhone phone)
                    = JS.removeNonDigits phone).
  { rewrite formatPhone_eq, removeNonDigits_append.
    rewrite (removeNonDigits_digits _ (removeNonDigits_allDigits phone)).
    apply append_empty_r. }
  split; [|split].
  - rewrite (formatPhone_eq (formatPhone phone)), Hdigits.
    symmetry. apply formatPhone_eq.
  - exact Hdigits.
  - intros Hnone. rewrite formatPhone_eq, Hnone. reflexivity.
Qed.

Lemma scan_without_brace pat v p (s : string) :
  pat = String "{" p ->
  forall b, lacks "{" s = true -> JS.replaceScan pat v b O s = s.
Proof.
  intros Hpat. induction s as [|c s IH]; intros b; [reflexivity|].
  cbn [lacks]. intros [Hc Hs]%andb_true_iff. cbn [JS.replaceScan].
  assert (Hpre : prefix pat (String c s) = false).
  { rewrite Hpat, prefix_cons, Ascii.eqb_sym.
    apply negb_true_iff in Hc. rewrite Hc. reflexivity. }
  rewrite Hpre, (IH _ Hs). reflexivity.
Qed.

(** X2. A template without an open brace is the body of every message,
    character for character, whatever the contact's fields hold (a
    missing value, dollar signs, braces). *)
Theorem personalize_without_braces :
  forall template contact,
    lacks "{" template = true -> personalize template contact = template.
Proof.
  intros template contact Hplain. unfold personalize, JS.replaceAll.
  rewrite (scan_without_brace "{name}" _ "name}" template eq_refl _ Hplain).
  rewrite (scan_without_brace "{phone}" _ "phone}" template eq_refl _ Hplain).
  apply (scan_without_brace "{email}" _ "email}" template eq_refl _ Hplain).
Qed.

Lemma personalize_without_braces_witness :
  personalize "Sale: $5 off today" dollar = "Sale: $5 off today".
Proof. apply personalize_without_braces. reflexivity. Defined.

(** ** The cron job between two ticks *)

Lemma isDue_later t t' k : t <= t' -> isDue t k = true -> isDue t' k = true.
Proof.
  unfold isDue. intros Hle [Hst Hat]%andb_true_iff. rewrite Hst.
  destruct (k_scheduled_at k) as [at_|]; [|discriminate Hat].
  apply Z.leb_le in Hat. apply Z.leb_le. lia.
Qed.

(** X3. A tick sets only the first campaign it selected to 'running'.
    The others keep the status 'scheduled' while they wait for their
    turn, so a later tick that comes before their turn selects them
    again. *)
Theorem tick_leaves_waiting_campaigns_due :
  forall w id next k t,
    map k_id (selectDue (now w) (db w)) = id :: next ->
    In k (selectDue (now w) (db w)) ->
    k_id k <> id ->
    now w <= t ->
    In k (selectDue t (db (cronTick w))) /\ In (k_id k) next.
Proof.
  intros w id next k t Hsel Hin Hother Hlater. split.
  - unfold cronTick. rewrite Hsel. cbn.
    apply filter_In in Hin as (Hin & Hdue). apply filter_In. split.
    + apply in_map_iff. exists k. split; [|exact Hin].
      apply Z.eqb_neq in Hother. rewrite Hother. reflexivity.
    + eapply isDue_later; eassumption.
  - assert (Hid : In (k_id k) (id :: next))
      by (rewrite <- Hsel; apply in_map, Hin).
    destruct Hid as [Hid|Hid]; [congruence | exact Hid].
Qed.

Lemma tick_leaves_waiting_campaigns_due_witness :
  exists k,
    k_id k = 2 /\
    In k (selectDue 160 (db (cronTick sampleTwoDue))) /\
    map (option_map t_then) (tasks (cronTick sampleTwoDue)) = [Some [2]].
Proof.
  exists (mkCampaign 2 "greet" "Hi {name}, your number is {phone}" None None
            scheduled (Some 50) None).
  split; [reflexivity|]. split; [|reflexivity].
  apply (tick_leaves_waiting_campaigns_due sampleTwoDue 1 [2]).
  - reflexivity.
  - right. left. reflexivity.
  - discriminate.
  - cbn. lia.
Defined.

(** ** Deleting a campaign *)

Lemma findCampaign_deleted id w :
  findCampaign id (db (snd (deleteCampaign id w))) = None.
Proof.
  unfold findCampaign. cbn.
  induction (campaigns (db w)) as [|k ks IH]; [reflexivity|].
  cbn [filter]. destruct (k_id k =? id) eqn:Hk; cbn [negb]; [exact IH|].
  cbn [find]. rewrite Hk. exact IH.
Qed.

(** X4. Once a campaign is deleted, a pass over it that is still
    suspended delivers nothing more: each attempt fails before the call of
    the transport, because the campaign row is gone. *)
Theorem deleted_campaign_sends_nothing :
  forall id total msg ch s f w,
    let w' := snd (deleteCampaign id w) in
    let r := attemptMessage id total msg ch (s, f) w' in
    fst r = (s, S f) /\
    sendLog (snd r) = sendLog w' /\
    emitted (snd r) = emitted w' /\
    selectMessages id (db w') = [].
Proof.
  intros id total msg ch s f w w' r. subst r.
  assert (Hthrown : exists e, trySend id msg ch w' = Thrown e).
  { unfold trySend, prepareCall. destruct (negb (isClientReady w')); [eexists; reflexivity|].
    destruct (m_phone msg); [|eexists; reflexivity].
    subst w'. rewrite findCampaign_deleted. eexists; reflexivity. }
  destruct Hthrown as (e & Hthrown). unfold attemptMessage. rewrite Hthrown.
  repeat split. subst w'. unfold selectMessages. cbn.
  induction (messages (db w)) as [|m ms IH]; [reflexivity|].
  cbn [filter]. destruct (m_campaign_id m =? id) eqn:Hm; cbn [negb];
    [exact IH|]. cbn [filter]. rewrite Hm. exact IH.
Qed.

(** ** A campaign after its creation *)

Lemma find_old_campaigns (ks : list Campaign) seq id' (row : Campaign) :
  (forall k, In k ks -> k_id k <= seq) ->
  k_id row = seq + 1 ->
  find (fun k => k_id k =? id') (ks ++ [row])
  = if id' =? seq + 1
    then Some row
    else find (fun k => k_id k =? id') ks.
Proof.
  intros Hbound Hrow. induction ks as [|k ks IH].
  - cbn. rewrite Hrow, (Z.eqb_sym id'). destruct (_ =? id'); reflexivity.
  - cbn [app find]. destruct (k_id k =? id') eqn:Hk.
    + apply Z.eqb_eq in Hk. pose proof (Hbound k (or_introl eq_refl)).
      assert (Hne : (id' =? seq + 1) = false) by (apply Z.eqb_neq; lia).
      rewrite Hne. reflexivity.
    + apply IH. intros k' Hin. apply Hbound. right. exact Hin.
Qed.

Lemma new_messages_of_campaign id message rows :
  forall from,
    filter (fun m => m_campaign_id m =? id)
      (insertMessages id message from rows)
    = insertMessages id message from rows /\
    filter (hasStatus pending) (insertMessages id message from rows)
    = insertMessages id message from rows /\
    filter (hasStatus sent) (insertMessages id message from rows) = [] /\
    filter (hasStatus failed) (insertMessages id message from rows) = [].
Proof.
  induction rows as [|c rows IH]; intros from; [repeat split|].
  destruct (IH (from + 1)) as (H1 & H2 & H3 & H4).
  cbn [insertMessages filter m_campaign_id hasStatus m_status
       MessageStatus_eqb].
  rewrite Z.eqb_refl, H1, H2, H3, H4. repeat split.
Qed.

Lemma filter_keeps_all {A} (p : A -> bool) (l : list A) :
  (forall x, In x l -> p x = true) -> filter p l = l.
Proof.
  induction l as [|a l IH]; intros Hall; [reflexivity|].
  cbn [filter]. rewrite (Hall a (or_introl eq_refl)), IH; [reflexivity|].
  intros x Hin. apply Hall. right. exact Hin.
Qed.

Lemma filter_keeps_none {A} (p : A -> bool) (l : list A) :
  (forall x, In x l -> p x = false) -> filter p l = [].
Proof.
  induction l as [|a l IH]; intros Hnone; [reflexivity|].
  cbn [filter]. rewrite (Hnone a (or_introl eq_refl)). apply IH.
  intros x Hin. apply Hnone. right. exact Hin.
Qed.

Lemma old_messages_of_other_campaigns (ms : list Message) seq :
  (forall m, In m ms -> m_campaign_id m <= seq) ->
  filter (fun m => m_campaign_id m =? seq + 1) ms = [].
Proof.
  intros Hbound. apply filter_keeps_none. intros m Hin.
  apply Hbound in Hin. apply Z.eqb_neq. lia.
Qed.

(** X5. In a database whose campaign ids were given out by the counter,
    the id that the creation answers finds the new row: it is 'scheduled'
    when the request has a time and 'draft' when it has none, and it has
    one pending message for each selected contact and no other.  The
    creation leaves every other campaign as it was. *)
Theorem created_campaign_is_found :
  forall req w,
    (forall k, In k (campaigns (db w)) -> k_id k <= campaign_seq (db w)) ->
    (forall m, In m (messages (db w)) ->
               m_campaign_id m <= campaign_seq (db w)) ->
    let id := campaign_seq (db w) + 1 in
    let w' := snd (createCampaign req w) in
    fst (createCampaign req w) = RCreated id /\
    (exists k, findCampaign id (db w') = Some k /\
               k_message k = q_message req /\
               k_scheduled_at k = q_scheduled_at req /\
               k_completed_at k = None /\
               k_status k = match q_scheduled_at req with
                            | Some _ => scheduled
                            | None => draft
                            end) /\
    (forall id', id' <> id ->
                 findCampaign id' (db w') = findCampaign id' (db w)) /\
    statsOf id (db w')
    = mkStats (List.length (selectContacts (q_contacts req) (db w))) O O
        (List.length (selectContacts (q_contacts req) (db w))).
Proof.
  intros req w Hk Hm id w'. split; [reflexivity|]. split; [|split].
  - eexists. unfold findCampaign. subst w'. cbn.
    rewrite find_old_campaigns with (seq := campaign_seq (db w));
      [|exact Hk | reflexivity].
    subst id. rewrite Z.eqb_refl. repeat split.
  - intros id' Hother. unfold findCampaign. subst w'. cbn.
    rewrite find_old_campaigns with (seq := campaign_seq (db w));
      [|exact Hk | reflexivity].
    apply Z.eqb_neq in Hother. subst id. rewrite Hother. reflexivity.
  - unfold statsOf, getCampaign, selectMessages. subst w' id. cbn.
    rewrite filter_app, (old_messages_of_other_campaigns _ _ Hm). cbn [app].
    destruct (new_messages_of_campaign (campaign_seq (db w) + 1)
                (q_message req)
                (selectContacts (q_contacts req) (db w)) (message_seq (db w)))
      as (-> & -> & -> & ->).
    rewrite insertMessages_length. reflexivity.
Qed.

Lemma created_campaign_is_found_witness :
  fst (createCampaign greetingAt50 sampleTwoDue) = RCreated 3 /\
  statusOf 3 (snd (createCampaign greetingAt50 sampleTwoDue))
  = Some scheduled /\
  statsOf 3 (db (snd (createCampaign greetingAt50 sampleTwoDue)))
  = mkStats 2 0 0 2.
Proof.
  assert (Hk : forall k, In k (campaigns (db sampleTwoDue)) ->
                         k_id k <= campaign_seq (db sampleTwoDue))
    by (cbn; intros k [<-|[<-|[]]]; cbn; lia).
  assert (Hm : forall m, In m (messages (db sampleTwoDue)) ->
                         m_campaign_id m <= campaign_seq (db sampleTwoDue))
    by (cbn; intros m [<-|[<-|[<-|[<-|[]]]]]; cbn; lia).
  destruct (created_campaign_is_found greetingAt50 sampleTwoDue Hk Hm)
    as (Hid & (k & Hfind & _ & _ & _ & Hst) & _ & Hstats).
  split; [exact Hid|]. split; [|exact Hstats].
  unfold statusOf.
  replace (findCampaign 3 (db (snd (createCampaign greetingAt50 sampleTwoDue))))
    with (Some k) by (symmetry; exact Hfind).
  cbn [option_map]. rewrite Hst. reflexivity.
Defined.

(** X6. A campaign created with a time is selected by a tick exactly when
    the clock has reached that time; a campaign created without a time is
    selected by no tick. *)
Theorem created_campaign_due_in_time :
  forall req w t,
    (forall k, In k (campaigns (db w)) -> k_id k <= campaign_seq (db w)) ->
    let id := campaign_seq (db w) + 1 in
    let w' := snd (createCampaign req w) in
    In id (map k_id (selectDue t (db w'))) <->
    exists at_, q_scheduled_at req = Some at_ /\ at_ <= t.
Proof.
  intros req w t Hk id w'. subst w'. unfold selectDue. cbn.
  rewrite filter_app, map_app, in_app_iff. split.
  - intros [Hold|Hnew].
    + exfalso. apply in_map_iff in Hold as (k & Hid & Hin).
      apply filter_In in Hin as (Hin & _). apply Hk in Hin. subst id. lia.
    + cbn in Hnew. unfold isDue in Hnew. cbn in Hnew.
      destruct (q_scheduled_at req) as [at_|]; [|contradiction].
      cbn in Hnew. destruct (at_ <=? t) eqn:Hat; [|contradiction].
      exists at_. split; [reflexivity | apply Z.leb_le, Hat].
  - intros (at_ & Hat & Hle). right. cbn. unfold isDue. cbn. rewrite Hat.
    cbn. apply Z.leb_le in Hle. rewrite Hle. left. reflexivity.
Qed.

Lemma created_campaign_due_in_time_witness :
  ~ In 1 (map k_id (selectDue 49
                      (db (snd (createCampaign greetingAt50 sampleWorld)))))
  /\ In 1 (map k_id (selectDue 50
                       (db (snd (createCampaign greetingAt50 sampleWorld))))).
Proof.
  assert (Hk : forall k, In k (campaigns (db sampleWorld)) ->
                         k_id k <= campaign_seq (db sampleWorld))
    by (intros k []).
  split.
  - intros Hin.
    apply (created_campaign_due_in_time greetingAt50 sampleWorld 49 Hk) in Hin.
    destruct Hin as (at_ & Hat & Hle). injection Hat as <-. lia.
  - apply (created_campaign_due_in_time greetingAt50 sampleWorld 50 Hk).
    exists 50. split; [reflexivity | lia].
Defined.

Lemma insertMessages_campaign id message rows :
  forall from m,
    In m (insertMessages id message from rows) -> m_campaign_id m = id.
Proof.
  induction rows as [|c rows IH]; intros from m Hin; [contradiction|].
  destruct Hin as [<-|Hin]; [reflexivity | eapply IH, Hin].
Qed.

(** X7. Deleting a campaign right after its creation gives back the
    tables of campaigns and of messages as they were before; only the two
    counters have moved on, so that the ids are not given out again. *)
Theorem delete_undoes_create :
  forall req w,
    (forall k, In k (campaigns (db w)) -> k_id k <= campaign_seq (db w)) ->
    (forall m, In m (messages (db w)) ->
               m_campaign_id m <= campaign_seq (db w)) ->
    let id := campaign_seq (db w) + 1 in
    let w' := snd (deleteCampaign id (snd (createCampaign req w))) in
    campaigns (db w') = campaigns (db w) /\
    messages (db w') = messages (db w) /\
    contacts (db w') = contacts (db w) /\
    campaign_seq (db w') = id /\
    message_seq (db w')
    = message_seq (db w)
      + Z.of_nat (List.length (selectContacts (q_contacts req) (db w))).
Proof.
  intros req w Hk Hm id w'. subst w'. cbn. repeat split.
  - rewrite filter_app. cbn. rewrite Z.eqb_refl. cbn. rewrite app_nil_r.
    apply filter_keeps_all. intros k Hin. apply Hk in Hin.
    apply negb_true_iff, Z.eqb_neq. subst id. lia.
  - rewrite filter_app, filter_keeps_all, filter_keeps_none.
    + apply app_nil_r.
    + intros m Hin. apply negb_false_iff, Z.eqb_eq.
      eapply insertMessages_campaign, Hin.
    + intros m Hin. apply Hm in Hin.
      apply negb_true_iff, Z.eqb_neq. subst id. lia.
Qed.

Lemma delete_undoes_create_witness :
  campaigns
    (db (snd (deleteCampaign 3 (snd (createCampaign greeting sampleTwoDue)))))
  = campaigns (db sampleTwoDue) /\
  messages
    (db (snd (deleteCampaign 3 (snd (createCampaign greeting sampleTwoDue)))))
  = messages (db sampleTwoDue).
Proof.
  assert (Hk : forall k, In k (campaigns (db sampleTwoDue)) ->
                         k_id k <= campaign_seq (db sampleTwoDue))
    by (cbn; intros k [<-|[<-|[]]]; cbn; lia).
  assert (Hm : forall m, In m (messages (db sampleTwoDue)) ->
                         m_campaign_id m <= campaign_seq (db sampleTwoDue))
    by (cbn; intros m [<-|[<-|[<-|[<-|[]]]]]; cbn; lia).
  destruct (delete_undoes_create greeting sampleTwoDue Hk Hm)
    as (Hcampaigns & Hmessages & _).
  split; [exact Hcampaigns | exact Hmessages].
Defined.

Lemma insertMessages_contacts id message rows :
  forall from,
    map m_contact_id (insertMessages id message from rows) = map c_id rows.
Proof.
  induction rows as [|c rows IH]; intros from; [reflexivity|].
  cbn [insertMessages map m_contact_id]. rewrite IH. reflexivity.
Qed.

(** X8. The creation makes a message for a contact id only when a contact
    has that id, and one message at most for each contact: ids that no
    contact has are passed over, an id that is listed twice counts once,
    and the request is answered with success all the same. *)
Theorem createCampaign_skips_unknown_and_repeated_ids :
  forall req w,
    NoDup (map c_id (contacts (db w))) ->
    exists new,
      messages (db (snd (createCampaign req w)))
      = (messages (db w) ++ new)%list /\
      rejected (fst (createCampaign req w)) = false /\
      NoDup (map m_contact_id new) /\
      (forall id, In id (map m_contact_id new) <->
                  In id (q_contacts req) /\
                  In id (map c_id (contacts (db w)))) /\
      (List.length new <= List.length (q_contacts req))%nat.
Proof.
  intros req w Hkey.
  exists (insertMessages (campaign_seq (db w) + 1) (q_message req)
            (message_seq (db w)) (selectContacts (q_contacts req) (db w))).
  assert (Hiff : forall id,
            In id (map c_id (selectContacts (q_contacts req) (db w))) <->
            In id (q_contacts req) /\ In id (map c_id (contacts (db w)))).
  { intros id. rewrite !in_map_iff. split.
    - intros (c & <- & Hin). apply selectContacts_In in Hin as (Hin & Hid).
      split; [exact Hid|]. exists c. auto.
    - intros (Hid & c & <- & Hin). exists c. split; [reflexivity|].
      apply selectContacts_In. auto. }
  assert (Hnd : NoDup (map c_id (selectContacts (q_contacts req) (db w))))
    by apply filter_keys_distinct, Hkey.
  split; [reflexivity|]. split; [reflexivity|].
  rewrite insertMessages_contacts, insertMessages_length.
  split; [exact Hnd|]. split; [exact Hiff|].
  rewrite <- (length_map c_id). apply NoDup_incl_length; [exact Hnd|].
  intros id Hin. apply Hiff in Hin. tauto.
Qed.

Lemma createCampaign_skips_unknown_and_repeated_ids_witness :
  map m_contact_id (messages (db (snd (createCampaign repeated sampleWorld))))
  = [2] /\
  exists new,
    messages (db (snd (createCampaign repeated sampleWorld))) = new /\
    (List.length new <= 3)%nat.
Proof.
  split; [reflexivity|].
  assert (Hkey : NoDup (map c_id (contacts (db sampleWorld))))
    by (cbn; distinct_ids).
  destruct (createCampaign_skips_unknown_and_repeated_ids repeated sampleWorld
              Hkey) as (new & Hnew & _ & _ & _ & Hlen).
  exists new. split; [exact Hnew | exact Hlen].
Defined.

(** ** What a pass does to the message rows *)

Lemma sameMessage_refl m : sameMessage m m.
Proof. repeat split. Qed.

Lemma sameMessage_trans a b c :
  sameMessage a b -> sameMessage b c -> sameMessage a c.
Proof.
  unfold sameMessage. intros (H1 & H2 & H3 & H4 & H5) (K1 & K2 & K3 & K4 & K5).
  repeat split; congruence.
Qed.

Lemma attemptMessage_rows campaignId total msg ch counters w :
  exists upd,
    messages (db (snd (attemptMessage campaignId total msg ch counters w)))
    = map (fun m => if m_id m =? m_id msg then upd m else m)
        (messages (db w)) /\
    (forall m, sameMessage m (upd m)) /\
    (forall m, m_status (upd m) <> pending).
Proof.
  destruct counters as [s f]. unfold attemptMessage.
  destruct (trySend campaignId msg ch w) as [call|e].
  - exists (sentRow (now w)). repeat split. discriminate.
  - exists (failedRow e). repeat split. discriminate.
Qed.

(** The loop maps a row to itself, or to a row with the same id,
    campaign, contact, phone and body that is not pending; the rows
    whose id was fetched are not pending afterwards, the rows whose id
    was not fetched are untouched. *)
Lemma sendLoop_rows campaignId total msgs :
  forall chs counters w,
    exists G,
      messages (db (snd (sendLoop campaignId total msgs chs counters w)))
      = map G (messages (db w)) /\
      (forall m, sameMessage m (G m)) /\
      (forall m, G m = m \/ m_status (G m) <> pending) /\
      (forall m, In (m_id m) (map m_id msgs) -> m_status (G m) <> pending) /\
      (forall m, ~ In (m_id m) (map m_id msgs) -> G m = m).
Proof.
  induction msgs as [|msg rest IH]; intros chs counters w.
  - exists (fun m => m). cbn [sendLoop snd map].
    split; [symmetry; apply map_id|].
    split; [intros m; apply sameMessage_refl|].
    split; [intros m; left; reflexivity|].
    split; [intros m [] | reflexivity].
  - cbn [sendLoop].
    destruct (attemptMessage_rows campaignId total msg (hd delivers chs)
                counters w) as (upd & Hms & Hsame & Hstatus).
    destruct (attemptMessage campaignId total msg (hd delivers chs)
                counters w) as [counters' w1].
    cbn [snd] in Hms.
    destruct (IH (tl chs) counters' w1) as (G & HG & Gsame & Gkeep & Gin & Gout).
    exists (fun m => G (if m_id m =? m_id msg then upd m else m)).
    split; [rewrite HG, Hms, map_map; reflexivity|].
    split; [|split; [|split]].
    + intros m. eapply sameMessage_trans; [|apply Gsame].
      destruct (m_id m =? m_id msg); [apply Hsame | apply sameMessage_refl].
    + intros m. destruct (m_id m =? m_id msg).
      * right. destruct (Gkeep (upd m)) as [->|Hnp]; [apply Hstatus | exact Hnp].
      * apply Gkeep.
    + intros m Hin. cbn [map] in Hin.
      destruct (m_id m =? m_id msg) eqn:Hid.
      * destruct (Gkeep (upd m)) as [->|Hnp]; [apply Hstatus | exact Hnp].
      * apply Gin. destruct Hin as [Hin|Hin]; [|exact Hin].
        apply Z.eqb_neq in Hid. congruence.
    + intros m Hout. cbn [map] in Hout.
      assert (Hid : (m_id m =? m_id msg) = false)
        by (apply Z.eqb_neq; intros Heq; apply Hout; left; congruence).
      rewrite Hid. apply Gout. intros Hin. apply Hout. right. exact Hin.
Qed.

(** X9. After a pass over a campaign none of its messages is pending, so
    a pass that follows at once (a start of the completed campaign) finds
    nothing to send: it resolves with 0 of 0 and makes no call of the
    transport. *)
Theorem pass_leaves_nothing_pending :
  forall id chs chs' w,
    let w' := snd (sendBulkMessages id chs w) in
    selectPending id (db w') = [] /\
    fst (sendBulkMessages id chs' w') = mkResult O O O /\
    messages (db (snd (sendBulkMessages id chs' w'))) = messages (db w') /\
    sendLog (snd (sendBulkMessages id chs' w')) = sendLog w'.
Proof.
  intros id chs chs' w w'.
  assert (Hnone : selectPending id (db w') = []).
  { subst w'. unfold sendBulkMessages.
    destruct (sendLoop_rows id (List.length (selectPending id (db w)))
                (selectPending id (db w)) chs (O, O) w)
      as (G & HG & Gsame & Gkeep & Gin & _).
    destruct (sendLoop id (List.length (selectPending id (db w)))
                (selectPending id (db w)) chs (O, O) w) as [counters w1].
    cbn [snd] in HG. unfold selectPending at 1. cbn. rewrite HG.
    apply filter_keeps_none. intros m' Hin.
    apply in_map_iff in Hin as (m & <- & Hin).
    destruct (isPendingOf id (G m)) eqn:Hpend; [exfalso | reflexivity].
    unfold isPendingOf in Hpend. apply andb_true_iff in Hpend as (Hc & Hst).
    assert (Hst' : m_status (G m) = pending)
      by (destruct (m_status (G m)); try discriminate Hst; reflexivity).
    destruct (Gkeep m) as [Hkeep|Hnp]; [|contradiction].
    apply (Gin m); [|exact Hst'].
    apply in_map. apply filter_In. split; [exact Hin|].
    rewrite Hkeep in Hc, Hst. unfold isPendingOf. rewrite Hc, Hst. reflexivity. }
  split; [exact Hnone|].
  unfold sendBulkMessages at 1 2 3. rewrite Hnone. cbn. repeat split.
Qed.

Lemma step_keeps_row w e m :
  In m (messages (db w)) ->
  (forall id, e = Delete id -> id <> m_campaign_id m) ->
  exists m', In m' (messages (db (step w e))) /\ sameMessage m m'.
Proof.
  intros Hin Hdel.
  assert (Hsame : exists m', In m' (messages (db w)) /\ sameMessage m m')
    by (exists m; split; [exact Hin | apply sameMessage_refl]).
  destruct e as [req|id|id|id| |i ch| | |dt]; try exact Hsame.
  - exists m. split; [|apply sameMessage_refl]. cbn.
    apply in_app_iff. left. exact Hin.
  - exists m. split; [|apply sameMessage_refl]. cbn. apply filter_In.
    split; [exact Hin|]. apply negb_true_iff, Z.eqb_neq.
    specialize (Hdel id eq_refl). congruence.
  - cbn [step]. unfold cronTick.
    destruct (map k_id (selectDue (now w) (db w))); exact Hsame.
  - cbn [step]. destruct (nth_error (tasks w) i) as [[t|]|]; try exact Hsame.
    unfold proceedTask. destruct (t_messages t) as [|msg rest].
    + unfold completePass. cbn [fst snd].
      destruct (t_then t); cbn; exact Hsame.
    + destruct (attemptMessage_rows (t_campaign t) (t_total t) msg ch
                  (t_sent t, t_failed t) w) as (upd & Hms & Hupd & _).
      destruct (attemptMessage (t_campaign t) (t_total t) msg ch
                  (t_sent t, t_failed t) w) as [[s f] w1].
      cbn [snd] in Hms. cbn. rewrite Hms.
      exists (if m_id m =? m_id msg then upd m else m). split.
      * apply (in_map (fun m0 => if m_id m0 =? m_id msg then upd m0 else m0)).
        exact Hin.
      * destruct (m_id m =? m_id msg); [apply Hupd | apply sameMessage_refl].
Qed.

(** X10. The message rows of a campaign stay as long as the campaign is
    not deleted: whatever events happen (other creations, starts, pauses,
    ticks, passes that interleave, deletions of other campaigns), a row
    is still in the table afterwards, with the same id, campaign,
    contact, phone number and body. *)
Theorem message_rows_are_kept :
  forall es w m,
    In m (messages (db w)) ->
    ~ In (Delete (m_campaign_id m)) es ->
    exists m', In m' (messages (db (run w es))) /\ sameMessage m m'.
Proof.
  induction es as [|e es IH]; intros w m Hin Hdel.
  - exists m. split; [exact Hin | apply sameMessage_refl].
  - destruct (step_keeps_row w e m Hin) as (m1 & Hin1 & Hsame1).
    { intros id -> Heq. apply Hdel. left. rewrite Heq. reflexivity. }
    destruct (IH (step w e) m1 Hin1) as (m' & Hin' & Hsame').
    { destruct Hsame1 as (_ & Hc & _). rewrite Hc.
      intros Hd. apply Hdel. right. exact Hd. }
    exists m'. split; [exact Hin'|]. eapply sameMessage_trans; eassumption.
Qed.

Lemma message_rows_are_kept_witness :
  exists m',
    In m' (messages (db (run sampleRunning
                           [Pause 1; Start 1; Proceed 0 rejects; Delete 2;
                            Proceed 1 delivers]))) /\
    m_id m' = 2 /\ m_phone m' = Some "+1556".
Proof.
  destruct (message_rows_are_kept
              [Pause 1; Start 1; Proceed 0 rejects; Delete 2;
               Proceed 1 delivers]
              sampleRunning
              (mkMessage 2 1 2 (Some "+1556") "Hi Leo, your number is +1556"
                 pending None None))
    as (m' & Hin & Hid & _ & _ & Hphone & _).
  - right. left. reflexivity.
  - cbn. intros [H|[H|[H|[H|[H|[]]]]]]; discriminate H.
  - exists m'. split; [exact Hin|]. split; [exact Hid | exact Hphone].
Defined.

Lemma find_other_update id id' (f : Campaign -> Campaign) ks :
  (forall k, k_id (f k) = k_id k) -> id' <> id ->
  find (fun k => k_id k =? id')
    (map (fun k => if k_id k =? id then f k else k) ks)
  = find (fun k => k_id k =? id') ks.
Proof.
  intros Hf Hother. induction ks as [|k ks IH]; [reflexivity|].
  cbn [map find]. destruct (k_id k =? id) eqn:Hk.
  - rewrite Hf. apply Z.eqb_eq in Hk.
    assert (Hne : (k_id k =? id') = false) by (apply Z.eqb_neq; congruence).
    rewrite Hne. exact IH.
  - destruct (k_id k =? id'); [reflexivity | exact IH].
Qed.

Lemma sendLoop_contacts id total msgs :
  forall chs counters w,
    contacts (db (snd (sendLoop id total msgs chs counters w)))
    = contacts (db w).
Proof.
  induction msgs as [|msg rest IH]; intros chs counters w; [reflexivity|].
  cbn [sendLoop].
  assert (Hone : contacts
                   (db (snd (attemptMessage id total msg (hd delivers chs)
                               counters w))) = contacts (db w)).
  { destruct counters as [s f]. unfold attemptMessage.
    destruct (trySend id msg (hd delivers chs) w); reflexivity. }
  destruct (attemptMessage id total msg (hd delivers chs) counters w)
    as [counters' w1].
  cbn [snd] in Hone. rewrite IH. exact Hone.
Qed.

(** X11. When message ids are distinct, a pass over a campaign changes no
    other row than the pending messages of that campaign and the row of
    the campaign: messages of other campaigns and messages that are
    already sent or failed stay as they are, and so do the other
    campaigns and the contacts. *)
Theorem pass_touches_only_its_pending_rows :
  forall id chs w,
    NoDup (map m_id (messages (db w))) ->
    let w' := snd (sendBulkMessages id chs w) in
    (exists G,
       messages (db w') = map G (messages (db w)) /\
       forall m, In m (messages (db w)) ->
                 m_campaign_id m <> id \/ m_status m <> pending -> G m = m) /\
    (forall id', id' <> id ->
                 findCampaign id' (db w') = findCampaign id' (db w)) /\
    contacts (db w') = contacts (db w).
Proof.
  intros id chs w Hids w'. subst w'. unfold sendBulkMessages.
  destruct (sendLoop_rows id (List.length (selectPending id (db w)))
              (selectPending id (db w)) chs (O, O) w)
    as (G & HG & _ & _ & _ & Gout).
  pose proof (sendLoop_frame id (List.length (selectPending id (db w)))
                (selectPending id (db w)) chs (O, O) w) as Hframe.
  pose proof (sendLoop_contacts id (List.length (selectPending id (db w)))
                (selectPending id (db w)) chs (O, O) w) as Hcontacts.
  destruct (sendLoop id (List.length (selectPending id (db w)))
              (selectPending id (db w)) chs (O, O) w) as [counters w1].
  cbn zeta in Hframe. cbn [fst snd] in HG, Hframe, Hcontacts.
  destruct Hframe as (Hk & _). cbn. split; [|split].
  - exists G. split; [exact HG|]. intros m Hin Hother. apply Gout.
    intros Hfetched. apply in_map_iff in Hfetched as (q & Hq & Hqin).
    apply filter_In in Hqin as (Hqin & Hpend).
    assert (q = m) as -> by (eapply key_injective; eassumption).
    unfold isPendingOf in Hpend. apply andb_true_iff in Hpend as (Hc & Hst).
    apply Z.eqb_eq in Hc. destruct Hother as [Hother|Hother];
      [contradiction|]. destruct (m_status m); try discriminate Hst.
    apply Hother. reflexivity.
  - intros id' Hother. unfold findCampaign. cbn. rewrite Hk.
    apply find_other_update; [reflexivity | exact Hother].
  - exact Hcontacts.
Qed.

Lemma pass_touches_only_its_pending_rows_witness :
  exists G,
    messages (db (snd (sendBulkMessages 1 [] sampleTwoDue)))
    = map G (messages (db sampleTwoDue)) /\
    G (mkMessage 3 2 1 (Some "+1555") "Hi Ana, your number is +1555" pending
         None None)
    = mkMessage 3 2 1 (Some "+1555") "Hi Ana, your number is +1555" pending
        None None.
Proof.
  assert (Hids : NoDup (map m_id (messages (db sampleTwoDue))))
    by (cbn; distinct_ids).
  destruct (pass_touches_only_its_pending_rows 1 [] sampleTwoDue Hids)
    as ((G & HG & Hkeep) & _).
  exists G. split; [exact HG|]. apply Hkeep.
  - right. right. left. reflexivity.
  - left. discriminate.
Defined.

(** ** A pass while the transport delivers *)

Lemma attemptMessage_delivered id total msg ch s f w k phone :
  isClientReady w = true ->
  findCampaign id (db w) = Some k ->
  delivering ch ->
  m_phone msg = Some phone ->
  exists media,
    attemptMessage id total msg ch (s, f) w
    = ((S s, f),
       mkWorld (updateSent (now w) (m_id msg) (db w)) true (now w) (tasks w)
         (mkSend (formatPhone phone) media (m_message msg) :: sendLog w)
         (mkSentEvent id (m_id msg) (m_phone msg) (S s) total :: emitted w)
         (results w)).
Proof.
  intros Hready Hk (Hurl & Hsend) Hphone.
  unfold attemptMessage, trySend, prepareCall. rewrite Hready, Hk, Hphone, Hurl, Hsend.
  cbn [negb]. destruct (JS.truthy (k_media_url k)); eexists; cbn;
    rewrite Hready; reflexivity.
Qed.

Lemma sendLoop_delivered id total k msgs :
  forall chs s f w,
    isClientReady w = true ->
    findCampaign id (db w) = Some k ->
    Forall delivering chs ->
    (forall m, In m msgs -> m_phone m <> None) ->
    let r := sendLoop id total msgs chs (s, f) w in
    fst r = ((s + List.length msgs)%nat, f) /\
    messages (db (snd r))
    = map (fun m => if existsb (Z.eqb (m_id m)) (map m_id msgs)
                    then sentRow (now w) m else m)
        (messages (db w)) /\
    map s_to (sendLog (snd r))
    = (rev (map (fun m => formatPhone (JS.toString (m_phone m))) msgs)
       ++ map s_to (sendLog w))%list /\
    map s_body (sendLog (snd r))
    = (rev (map m_message msgs) ++ map s_body (sendLog w))%list.
Proof.
  induction msgs as [|msg rest IH]; intros chs s f w Hready Hk Hchs Hphones.
  - cbn. rewrite Nat.add_0_r. repeat split. symmetry. apply map_id.
  - cbn [sendLoop].
    assert (Hch : delivering (hd delivers chs))
      by (destruct chs; [split; reflexivity | apply (Forall_inv Hchs)]).
    assert (Hrest : Forall delivering (tl chs))
      by (destruct chs; [constructor | apply (Forall_inv_tail Hchs)]).
    destruct (m_phone msg) as [phone|] eqn:Hphone;
      [|exfalso; apply (Hphones msg (or_introl eq_refl)); exact Hphone].
    destruct (attemptMessage_delivered id total msg (hd delivers chs) s f w k
                phone Hready Hk Hch Hphone) as (media & ->).
    set (w1 := mkWorld _ _ _ _ _ _ _).
    assert (Hk1 : findCampaign id (db w1) = Some k) by exact Hk.
    destruct (IH (tl chs) (S s) f w1 eq_refl Hk1 Hrest
                (fun m Hin => Hphones m (or_intror Hin)))
      as (Hc & Hm & Hto & Hbody).
    cbn zeta. rewrite Hc, Hm, Hto, Hbody. cbn [List.length map rev].
    split; [f_equal; lia|]. split; [|split].
    + subst w1. cbn. rewrite map_map. apply map_ext. intros m.
      cbn [existsb]. destruct (m_id m =? m_id msg) eqn:Hid; cbn [orb].
      * cbn [sentRow m_id]. destruct (existsb _ _); reflexivity.
      * reflexivity.
    + subst w1. cbn. rewrite Hphone. cbn [JS.toString].
      rewrite <- app_assoc. reflexivity.
    + subst w1. cbn. rewrite <- app_assoc. reflexivity.
Qed.

(** X12. While the client is ready and the transport accepts every call,
    a pass over an existing campaign whose pending messages all have a
    phone number delivers each of them once, in the order of the table,
    to the address of its phone number and with its own body.  Each of
    them stands at its place in the table afterwards with status [sent]
    and a time of sending that is not before the start of the pass, its
    other columns as they were, and the result has [sent = total] and
    [failed = 0]. *)
Theorem ready_pass_delivers_all :
  forall id chs w k,
    isClientReady w = true ->
    findCampaign id (db w) = Some k ->
    Forall delivering chs ->
    (forall m, In m (selectPending id (db w)) -> m_phone m <> None) ->
    let res := fst (sendBulkMessages id chs w) in
    let w' := snd (sendBulkMessages id chs w) in
    r_sent res = r_total res /\
    r_failed res = O /\
    r_total res = List.length (selectPending id (db w)) /\
    (forall i m,
        nth_error (messages (db w)) i = Some m ->
        m_campaign_id m = id -> m_status m = pending ->
        exists m',
          nth_error (messages (db w')) i = Some m' /\
          m_status m' = sent /\
          (exists t, m_sent_at m' = Some t /\ now w <= t) /\
          m_error m' = m_error m /\
          m_id m' = m_id m /\ m_campaign_id m' = id /\
          m_contact_id m' = m_contact_id m /\ m_phone m' = m_phone m /\
          m_message m' = m_message m) /\
    map s_to (sendLog w')
    = (rev (map (fun m => formatPhone (JS.toString (m_phone m)))
              (selectPending id (db w)))
       ++ map s_to (sendLog w))%list /\
    map s_body (sendLog w')
    = (rev (map m_message (selectPending id (db w)))
       ++ map s_body (sendLog w))%list.
Proof.
  intros id chs w k Hready Hk Hchs Hphones. unfold sendBulkMessages.
  set (msgs := selectPending id (db w)) in *.
  destruct (sendLoop_delivered id (List.length msgs) k msgs chs O O w
              Hready Hk Hchs Hphones) as (Hc & Hm & Hto & Hbody).
  destruct (sendLoop id (List.length msgs) msgs chs (O, O) w)
    as [counters w1].
  cbn [fst snd] in Hc, Hm, Hto, Hbody. subst counters. cbn.
  repeat split; try assumption.
  intros i m Hnth Hcid Hst. rewrite Hm, nth_error_map, Hnth.
  cbn [option_map]. eexists. split; [reflexivity|].
  assert (Hex : existsb (Z.eqb (m_id m)) (map m_id msgs) = true).
  { apply existsb_exists. exists (m_id m). split; [|apply Z.eqb_refl].
    apply in_map. apply filter_In. split; [exact (nth_error_In _ _ Hnth)|].
    unfold isPendingOf. rewrite Hcid, Z.eqb_refl, Hst. reflexivity. }
  rewrite Hex. cbn. repeat split; [|exact Hcid].
  exists (now w). split; [reflexivity | lia].
Qed.

Lemma ready_pass_delivers_all_witness :
  fst (sendBulkMessages 1 [] sampleCreated) = mkResult 2 0 2 /\
  map s_to (sendLog (snd (sendBulkMessages 1 [] sampleCreated)))
  = ["1556@c.us"; "1555@c.us"] /\
  map m_status (messages (db (snd (sendBulkMessages 1 [] sampleCreated))))
  = [sent; sent].
Proof.
  destruct (ready_pass_delivers_all 1 [] sampleCreated
              (mkCampaign 1 "greet" "Hi {name}, your number is {phone}"
                 None None draft None None))
    as (Hs & Hf & Ht & _ & Hto & _).
  - reflexivity.
  - reflexivity.
  - constructor.
  - cbn. intros m [<-|[<-|[]]]; discriminate.
  - split; [|split; [exact Hto | reflexivity]].
    destruct (fst (sendBulkMessages 1 [] sampleCreated)) as [s f t].
    cbn in Hs, Hf, Ht. subst. reflexivity.
Defined.

(** ** Progress events *)

Lemma sendLoop_progress id total msgs :
  forall chs s f w,
    let r := sendLoop id total msgs chs (s, f) w in
    exists calls evs,
      sendLog (snd r) = (calls ++ sendLog w)%list /\
      emitted (snd r) = (evs ++ emitted w)%list /\
      List.length calls = List.length evs /\
      fst (fst r) = (s + List.length evs)%nat /\
      map e_sent evs = rev (seq (S s) (List.length evs)) /\
      Forall (fun e => e_campaignId e = id /\ e_total e = total) evs.
Proof.
  induction msgs as [|msg rest IH]; intros chs s f w.
  - exists [], []. cbn. rewrite Nat.add_0_r. repeat split. constructor.
  - cbn [sendLoop]. unfold attemptMessage.
    destruct (trySend id msg (hd delivers chs) w) as [call|e].
    + set (w1 := mkWorld _ _ _ _ _ _ _).
      destruct (IH (tl chs) (S s) f w1)
        as (calls & evs & Hlog & Hev & Hlen & Hs & Hnum & Hall).
      exists (calls ++ [call])%list,
             (evs ++ [mkSentEvent id (m_id msg) (m_phone msg) (S s) total])%list.
      cbn zeta in *. rewrite Hlog, Hev, Hs.
      rewrite !length_app, Hlen, <- !app_assoc, map_app, Hnum.
      cbn [List.length]. rewrite Nat.add_1_r.
      repeat split; try lia.
      apply Forall_app. split; [exact Hall|].
      constructor; [split; reflexivity | constructor].
    + set (w1 := with_db _ w). apply (IH (tl chs) s (S f) w1).
Qed.

(** X13. A pass emits one progress event for each message it delivers and
    none for a failed attempt: the events of a pass are numbered 1, 2, ...
    up to the number of delivered messages, each names the campaign and
    the number of messages fetched, and there are as many of them as
    calls of the transport that went through. *)
Theorem pass_reports_each_delivery :
  forall id chs w,
    let res := fst (sendBulkMessages id chs w) in
    let w' := snd (sendBulkMessages id chs w) in
    exists calls evs,
      sendLog w' = (calls ++ sendLog w)%list /\
      emitted w' = (evs ++ emitted w)%list /\
      List.length calls = r_sent res /\
      List.length evs = r_sent res /\
      map e_sent evs = rev (seq 1 (r_sent res)) /\
      Forall (fun e => e_campaignId e = id /\ e_total e = r_total res) evs.
Proof.
  intros id chs w. unfold sendBulkMessages.
  set (msgs := selectPending id (db w)).
  destruct (sendLoop_progress id (List.length msgs) msgs chs O O w)
    as (calls & evs & Hlog & Hev & Hlen & Hs & Hnum & Hall).
  destruct (sendLoop id (List.length msgs) msgs chs (O, O) w)
    as [[s f] w1].
  cbn [fst snd] in *. exists calls, evs. cbn. subst s.
  repeat split; assumption.
Qed.

(** ** The counts of the details and of the analytics *)

Lemma filter_filter_and {A} (p q : A -> bool) (l : list A) :
  filter q (filter p l) = filter (fun x => p x && q x) l.
Proof.
  induction l as [|a l IH]; [reflexivity|].
  cbn [filter]. destruct (p a); cbn [filter andb]; [|exact IH].
  destruct (q a); rewrite IH; reflexivity.
Qed.

Lemma length_by_status (ms : list Message) :
  (List.length ms
   = List.length (filter (hasStatus sent) ms)
     + List.length (filter (hasStatus failed) ms)
     + List.length (filter (hasStatus pending) ms))%nat.
Proof.
  induction ms as [|m ms IH]; [reflexivity|].
  cbn [filter List.length].
  destruct (hasStatus sent m) eqn:Hs, (hasStatus failed m) eqn:Hf,
    (hasStatus pending m) eqn:Hp;
    unfold hasStatus in Hs, Hf, Hp; destruct (m_status m);
    try discriminate; cbn [List.length]; lia.
Qed.

(** X14. The total of the details of a campaign is the sum of its sent,
    failed and pending counts, for every campaign id and every state of
    the tables; for an id that no campaign has the details hold no row. *)
Theorem stats_add_up :
  forall id d,
    (st_total (statsOf id d)
     = st_sent (statsOf id d) + st_failed (statsOf id d)
       + st_pending (statsOf id d))%nat /\
    (findCampaign id d = None -> fst (fst (getCampaign id d)) = None) /\
    ((forall m, In m (messages d) -> m_campaign_id m <> id) ->
     statsOf id d = mkStats O O O O).
Proof.
  intros id d. split; [|split].
  - unfold statsOf, getCampaign. cbn. apply length_by_status.
  - intros Hnone. exact Hnone.
  - intros Hnone. unfold statsOf, getCampaign, selectMessages. cbn.
    rewrite (filter_keeps_none _ (messages d)); [reflexivity|].
    intros m Hin. apply Z.eqb_neq. apply Hnone, Hin.
Qed.

Section Counting.

Variable keep : Message -> bool.
Hypothesis keep_same : forall m m', sameMessage m m' -> keep m' = keep m.

Lemma update_one_row (upd : Message -> Message) ms q :
  NoDup (map m_id ms) -> In q ms ->
  exists l1 l2,
    ms = (l1 ++ q :: l2)%list /\
    map (fun m => if m_id m =? m_id q then upd m else m) ms
    = (l1 ++ upd q :: l2)%list.
Proof.
  intros Hids Hin. destruct (in_split _ _ Hin) as (l1 & l2 & ->).
  exists l1, l2. split; [reflexivity|].
  rewrite map_app in Hids. cbn [map] in Hids.
  pose proof (NoDup_remove_2 _ _ _ Hids) as Hfresh.
  assert (Hkeep : forall l, (forall m, In m l -> In (m_id m) (map m_id l1 ++ map m_id l2)) ->
            map (fun m => if m_id m =? m_id q then upd m else m) l = l).
  { intros l Hl. rewrite <- (map_id l) at 2. apply map_ext_in. intros m Hm.
    assert (Hne : (m_id m =? m_id q) = false).
    { apply Z.eqb_neq. intros Heq. apply Hfresh. rewrite <- Heq.
      apply Hl, Hm. }
    rewrite Hne. reflexivity. }
  rewrite map_app. cbn [map]. rewrite Z.eqb_refl, !Hkeep; [reflexivity| |].
  - intros m Hm. apply in_app_iff. right. apply in_map, Hm.
  - intros m Hm. apply in_app_iff. left. apply in_map, Hm.
Qed.

Lemma count_update (upd : Message -> Message) ms q st :
  NoDup (map m_id ms) -> In q ms ->
  m_status q = pending -> keep q = true ->
  sameMessage q (upd q) ->
  (countWith keep st
     (map (fun m => if (m_id m =? m_id q)%Z then upd m else m) ms)
   + (if MessageStatus_eqb pending st then 1 else 0)
   = countWith keep st ms
     + (if MessageStatus_eqb (m_status (upd q)) st then 1 else 0))%nat.
Proof.
  intros Hids Hin Hpending Hkeep Hsame.
  destruct (update_one_row upd ms q Hids Hin) as (l1 & l2 & -> & ->).
  unfold countWith. rewrite !filter_app, !length_app. cbn [filter].
  rewrite (keep_same _ _ Hsame), Hkeep. cbn [andb].
  replace (hasStatus st q) with (MessageStatus_eqb pending st)
    by (unfold hasStatus; rewrite Hpending; reflexivity).
  change (hasStatus st (upd q)) with (MessageStatus_eqb (m_status (upd q)) st).
  destruct (MessageStatus_eqb pending st),
    (MessageStatus_eqb (m_status (upd q)) st);
    cbn [List.length]; lia.
Qed.

Lemma sendLoop_counts id total msgs :
  forall chs s f w,
    NoDup (map m_id (messages (db w))) ->
    NoDup (map m_id msgs) ->
    (forall q, In q msgs ->
               In q (messages (db w)) /\ m_status q = pending /\
               keep q = true) ->
    let r := sendLoop id total msgs chs (s, f) w in
    (countWith keep sent (messages (db (snd r))) + s
     = countWith keep sent (messages (db w)) + fst (fst r))%nat /\
    (countWith keep failed (messages (db (snd r))) + f
     = countWith keep failed (messages (db w)) + snd (fst r))%nat /\
    (countWith keep pending (messages (db (snd r))) + List.length msgs
     = countWith keep pending (messages (db w)))%nat.
Proof.
  induction msgs as [|msg rest IH]; intros chs s f w Hids Hqueue Hrows.
  - cbn. repeat split; lia.
  - cbn [sendLoop map] in *.
    apply NoDup_cons_iff in Hqueue as (Hfresh & Hqueue).
    destruct (Hrows msg (or_introl eq_refl)) as (Hin & Hpending & Hkeep).
    assert (Hstep : exists upd s1 f1 w1,
              attemptMessage id total msg (hd delivers chs) (s, f) w
              = ((s1, f1), w1) /\
              messages (db w1)
              = map (fun m => if m_id m =? m_id msg then upd m else m)
                  (messages (db w)) /\
              sameMessage msg (upd msg) /\
              (forall m, m_id (upd m) = m_id m) /\
              ((m_status (upd msg) = sent /\ s1 = S s /\ f1 = f) \/
               (m_status (upd msg) = failed /\ s1 = s /\ f1 = S f))).
    { unfold attemptMessage.
      destruct (trySend id msg (hd delivers chs) w) as [call|e].
      - exists (sentRow (now w)). do 3 eexists.
        split; [reflexivity|]. repeat split. left. repeat split.
      - exists (failedRow e). do 3 eexists.
        split; [reflexivity|]. repeat split. right. repeat split. }
    destruct Hstep as (upd & s1 & f1 & w1 & -> & Hms & Hsame & Hupd_id & Hcase).
    assert (Hids1 : NoDup (map m_id (messages (db w1)))).
    { rewrite Hms, map_map.
      rewrite (map_ext _ m_id); [exact Hids|].
      intros m. destruct (m_id m =? m_id msg); [apply Hupd_id | reflexivity]. }
    assert (Hrows1 : forall q, In q rest ->
              In q (messages (db w1)) /\ m_status q = pending /\
              keep q = true).
    { intros q Hq. destruct (Hrows q (or_intror Hq)) as (Hqin & Hqp & Hqk).
      repeat split; try assumption. rewrite Hms.
      apply (in_map (fun m => if m_id m =? m_id msg then upd m else m)) in Hqin.
      assert (Hne : (m_id q =? m_id msg) = false).
      { apply Z.eqb_neq. intros Heq. apply Hfresh. rewrite <- Heq.
        apply in_map, Hq. }
      rewrite Hne in Hqin. exact Hqin. }
    destruct (IH (tl chs) s1 f1 w1 Hids1 Hqueue Hrows1) as (Hs & Hf & Hp).
    pose proof (count_update upd _ msg sent Hids Hin Hpending Hkeep Hsame)
      as Csent.
    pose proof (count_update upd _ msg failed Hids Hin Hpending Hkeep Hsame)
      as Cfailed.
    pose proof (count_update upd _ msg pending Hids Hin Hpending Hkeep Hsame)
      as Cpending.
    rewrite <- Hms in Csent, Cfailed, Cpending.
    cbn zeta in *. cbn [List.length].
    destruct Hcase as [(Hst & -> & ->)|(Hst & -> & ->)];
      rewrite Hst in Csent, Cfailed, Cpending;
      cbn [MessageStatus_eqb] in Csent, Cfailed, Cpending;
      repeat split; lia.
Qed.

End Counting.

(** X15. When message ids are distinct, the result of a pass agrees with
    what the details and the analytics show afterwards: the sent count of
    the campaign has grown by [sent], its failed count by [failed], its
    pending count is 0 and its total is unchanged; the counts of sent and
    failed messages of the analytics have grown by the same numbers. *)
Theorem pass_result_matches_counts :
  forall id chs w,
    NoDup (map m_id (messages (db w))) ->
    let res := fst (sendBulkMessages id chs w) in
    let before := statsOf id (db w) in
    let after := statsOf id (db (snd (sendBulkMessages id chs w))) in
    (st_sent after = st_sent before + r_sent res)%nat /\
    (st_failed after = st_failed before + r_failed res)%nat /\
    st_pending after = O /\
    st_total after = st_total before /\
    (messagesSent (analytics (db (snd (sendBulkMessages id chs w))))
     = messagesSent (analytics (db w)) + r_sent res)%nat /\
    (messagesFailed (analytics (db (snd (sendBulkMessages id chs w))))
     = messagesFailed (analytics (db w)) + r_failed res)%nat.
Proof.
  intros id chs w Hids res before after.
  set (inCampaign := fun m : Message => m_campaign_id m =? id).
  set (msgs := selectPending id (db w)).
  assert (Hqueue : NoDup (map m_id msgs))
    by (apply filter_keys_distinct, Hids).
  assert (Hsame : forall m m', sameMessage m m' ->
                               inCampaign m' = inCampaign m)
    by (intros m m' (_ & Hc & _); unfold inCampaign; rewrite Hc; reflexivity).
  assert (Hrows : forall q, In q msgs ->
            In q (messages (db w)) /\ m_status q = pending /\
            inCampaign q = true).
  { intros q Hq. apply filter_In in Hq as (Hq & Hp).
    unfold isPendingOf in Hp. apply andb_true_iff in Hp as (Hc & Hst).
    destruct (m_status q); try discriminate Hst. auto. }
  assert (Hrows' : forall q, In q msgs ->
            In q (messages (db w)) /\ m_status q = pending /\ true = true)
    by (intros q Hq; destruct (Hrows q Hq) as (H1 & H2 & _); auto).
  pose proof (sendLoop_counts inCampaign Hsame id (List.length msgs) msgs
                chs O O w Hids Hqueue Hrows) as (Cs & Cf & Cp).
  pose proof (sendLoop_counts (fun _ => true) (fun _ _ _ => eq_refl) id
                (List.length msgs) msgs chs O O w Hids Hqueue Hrows')
    as (As & Af & _).
  pose proof (sendLoop_frame id (List.length msgs) msgs chs (O, O) w)
    as (_ & _ & _ & _ & _ & Hsum).
  assert (Hpend : countWith inCampaign pending (messages (db w))
                  = List.length msgs) by reflexivity.
  assert (Hstat : forall d st,
            List.length (filter (hasStatus st) (selectMessages id d))
            = countWith inCampaign st (messages d))
    by (intros d st; unfold selectMessages; rewrite filter_filter_and;
        reflexivity).
  assert (Hall : forall d st,
            List.length (filter (hasStatus st) (messages d))
            = countWith (fun _ => true) st (messages d)) by reflexivity.
  pose proof (length_by_status (selectMessages id (db w))) as Tbefore.
  pose proof (length_by_status
                (selectMessages id (db (snd (sendBulkMessages id chs w)))))
    as Tafter.
  subst res before after. unfold statsOf, getCampaign, analytics.
  cbn [snd st_sent st_failed st_pending st_total messagesSent messagesFailed].
  rewrite !Hstat, !Hall in *.
  unfold sendBulkMessages in *. fold msgs in Tafter |- *.
  destruct (sendLoop id (List.length msgs) msgs chs (O, O) w)
    as [[s f] w1].
  cbn [fst snd completePass with_db db updateCompleted with_campaigns
       messages r_sent r_failed] in *.
  repeat split; lia.
Qed.

Lemma pass_result_matches_counts_witness :
  statsOf 1 (db sampleCreated) = mkStats 2 0 0 2 /\
  st_sent (statsOf 1 (db (snd (sendBulkMessages 1 [rejects] sampleCreated))))
  = 1%nat /\
  st_pending
    (statsOf 1 (db (snd (sendBulkMessages 1 [rejects] sampleCreated))))
  = O.
Proof.
  assert (Hids : NoDup (map m_id (messages (db sampleCreated))))
    by (cbn; distinct_ids).
  destruct (pass_result_matches_counts 1 [rejects] sampleCreated Hids)
    as (Hs & _ & Hp & _).
  split; [reflexivity|]. split; [|exact Hp]. rewrite Hs. reflexivity.
Defined.

(** ** Contacts *)

Lemma phoneTaken_app phone (l1 l2 : list Contact) :
  phoneTaken phone (l1 ++ l2) = phoneTaken phone l1 || phoneTaken phone l2.
Proof.
  destruct phone as [p|]; [|reflexivity]. cbn. apply existsb_app.
Qed.

Lemma phoneTaken_self p (c : Contact) :
  c_phone c = Some p -> phoneTaken (Some p) [c] = true.
Proof.
  intros Hc. cbn. unfold samePhone. rewrite Hc, String.eqb_refl. reflexivity.
Qed.

Lemma phoneTaken_one_sym (a c : Contact) :
  phoneTaken (c_phone c) [a] = phoneTaken (c_phone a) [c].
Proof.
  unfold phoneTaken, samePhone. cbn.
  destruct (c_phone c) as [p|], (c_phone a) as [q|]; try reflexivity.
  rewrite String.eqb_sym. reflexivity.
Qed.

Lemma phonesUnique_snoc (l : list Contact) c :
  phonesUnique l -> phoneTaken (c_phone c) l = false ->
  phonesUnique (l ++ [c]).
Proof.
  induction l as [|a l IH]; intros Hl Hfree.
  - cbn. destruct (c_phone c); repeat split.
  - destruct Hl as (Ha & Hl).
    change (a :: l) with ([a] ++ l)%list in Hfree.
    rewrite phoneTaken_app in Hfree.
    apply orb_false_iff in Hfree as (Hca & Hcl).
    cbn [app phonesUnique]. split; [|apply IH; assumption].
    rewrite phoneTaken_app, Ha, <- phoneTaken_one_sym, Hca. reflexivity.
Qed.

Lemma phonesUnique_filter (keep : Contact -> bool) (l : list Contact) :
  phonesUnique l -> phonesUnique (filter keep l).
Proof.
  induction l as [|a l IH]; [trivial|]. intros (Ha & Hl).
  cbn [filter]. destruct (keep a); [|apply IH, Hl].
  split; [|apply IH, Hl].
  destruct (c_phone a) as [p|]; [|reflexivity]. cbn in Ha |- *.
  destruct (existsb (samePhone p) (filter keep l)) eqn:Hex; [|reflexivity].
  apply existsb_exists in Hex as (c & Hin & Hc).
  apply filter_In in Hin as (Hin & _).
  rewrite <- Ha. symmetry. apply existsb_exists. exists c. auto.
Qed.

Lemma insertOrIgnore_unique dir row :
  phonesUnique (d_rows dir) -> phonesUnique (d_rows (insertOrIgnore dir row)).
Proof.
  intros Hdir. unfold insertOrIgnore.
  destruct (phoneTaken (Some (orEmpty (v_phone row))) (d_rows dir)) eqn:Htaken;
    cbn [d_rows]; [exact Hdir|].
  apply phonesUnique_snoc; [exact Hdir | exact Htaken].
Qed.

Lemma insertOrIgnore_grows dir row :
  d_seq (insertOrIgnore dir row) = d_seq dir + 1 /\
  exists added,
    d_rows (insertOrIgnore dir row) = (d_rows dir ++ added)%list /\
    (List.length added <= 1)%nat /\
    Forall (fun c => c_name c <> None /\ c_phone c <> None /\
                     c_email c <> None /\ c_id c = d_seq dir + 1) added.
Proof.
  unfold insertOrIgnore.
  destruct (phoneTaken (Some (orEmpty (v_phone row))) (d_rows dir));
    (split; [reflexivity|]).
  - exists []. cbn [d_rows]. rewrite app_nil_r.
    repeat split; [cbn; lia | constructor].
  - eexists [_]. cbn [d_rows]. repeat split; [cbn; lia|].
    constructor; [|constructor]. cbn. repeat split; discriminate.
Qed.

Lemma import_grows rows :
  forall dir,
    d_seq (fold_left insertOrIgnore rows dir)
    = d_seq dir + Z.of_nat (List.length rows) /\
    exists added,
      d_rows (fold_left insertOrIgnore rows dir) = (d_rows dir ++ added)%list /\
      (List.length added <= List.length rows)%nat /\
      Forall (fun c => c_name c <> None /\ c_phone c <> None /\
                       c_email c <> None /\
                       d_seq dir < c_id c
                       <= d_seq dir + Z.of_nat (List.length rows)) added /\
      NoDup (map c_id added).
Proof.
  induction rows as [|row rows IH]; intros dir.
  - split; [cbn; lia|]. exists []. rewrite app_nil_r.
    repeat split; [cbn; lia | constructor | constructor].
  - cbn [fold_left].
    destruct (insertOrIgnore_grows dir row) as (S1 & a1 & H1 & L1 & F1).
    destruct (IH (insertOrIgnore dir row)) as (S2 & a2 & H2 & L2 & F2 & N2).
    rewrite S1 in S2, F2.
    split; [rewrite S2; cbn [List.length]; lia|].
    exists (a1 ++ a2)%list. rewrite H2, H1, app_assoc, length_app.
    cbn [List.length]. split; [reflexivity|]. split; [lia|].
    rewrite Forall_forall in F1, F2. split.
    + apply Forall_app. split; apply Forall_forall; intros c Hc.
      * destruct (F1 c Hc) as (? & ? & ? & Hid). repeat split; try assumption;
          lia.
      * destruct (F2 c Hc) as (? & ? & ? & Hid). repeat split; try assumption;
          lia.
    + rewrite map_app. apply NoDup_app; [|exact N2|].
      * destruct a1 as [|c1 [|c2 a1]]; [constructor| |cbn in L1; lia].
        constructor; [intros []|constructor].
      * intros id Hin1 Hin2.
        apply in_map_iff in Hin1 as (c1 & <- & Hc1).
        apply in_map_iff in Hin2 as (c2 & Heq & Hc2).
        destruct (F1 c1 Hc1) as (_ & _ & _ & Hid1).
        destruct (F2 c2 Hc2) as (_ & _ & _ & Hid2). lia.
Qed.

Lemma import_takes rows :
  forall dir row,
    In row rows ->
    phoneTaken (Some (orEmpty (v_phone row)))
      (d_rows (fold_left insertOrIgnore rows dir)) = true.
Proof.
  induction rows as [|r rows IH]; intros dir row Hin; [contradiction|].
  cbn [fold_left]. destruct Hin as [->|Hin]; [|apply IH, Hin].
  destruct (import_grows rows (insertOrIgnore dir row))
    as (_ & added & -> & _).
  rewrite phoneTaken_app. apply orb_true_iff. left.
  unfold insertOrIgnore.
  destruct (phoneTaken (Some (orEmpty (v_phone row))) (d_rows dir)) eqn:Htaken;
    cbn [d_rows]; [exact Htaken|].
  rewrite phoneTaken_app. apply orb_true_iff. right.
  apply phoneTaken_self. reflexivity.
Qed.

Lemma import_of_taken rows :
  forall dir,
    (forall row, In row rows ->
       phoneTaken (Some (orEmpty (v_phone row))) (d_rows dir) = true) ->
    d_rows (fold_left insertOrIgnore rows dir) = d_rows dir.
Proof.
  induction rows as [|r rows IH]; intros dir Htaken; [reflexivity|].
  cbn [fold_left].
  assert (Hsame : d_rows (insertOrIgnore dir r) = d_rows dir)
    by (unfold insertOrIgnore; rewrite (Htaken r (or_introl eq_refl));
        reflexivity).
  rewrite IH; [exact Hsame|].
  intros row Hin. rewrite Hsame. apply Htaken. right. exact Hin.
Qed.

(** X16. A phone number stands in the contacts once.  Adding a contact,
    deleting one and importing a file keep the phone numbers distinct;
    a contact without a phone number is always accepted; and a second
    contact with a phone number that has just been asked for is refused
    and leaves the table as it was. *)
Theorem phone_numbers_stay_distinct :
  forall dir,
    phonesUnique (d_rows dir) ->
    (forall name phone email,
        phonesUnique (d_rows (snd (addContact name phone email dir)))) /\
    (forall id, phonesUnique (d_rows (snd (deleteContact id dir)))) /\
    (forall rows, phonesUnique (d_rows (snd (importContacts rows dir)))) /\
    (forall name email,
        fst (addContact name None email dir) = RCreated (d_seq dir + 1)) /\
    (forall name email name' email' p,
        let dir1 := snd (addContact name (Some p) email dir) in
        addContact name' (Some p) email' dir1 = (RError uniqueFailed, dir1)).
Proof.
  intros dir Hdir. split; [|split; [|split; [|split]]].
  - intros name phone email. unfold addContact.
    destruct (phoneTaken phone (d_rows dir)) eqn:Htaken; [exact Hdir|].
    cbn [snd d_rows]. apply phonesUnique_snoc; [exact Hdir | exact Htaken].
  - intros id. apply phonesUnique_filter, Hdir.
  - intros rows. cbn [importContacts snd]. revert dir Hdir.
    induction rows as [|row rows IH]; intros dir Hdir; [exact Hdir|].
    cbn [fold_left]. apply IH, insertOrIgnore_unique, Hdir.
  - reflexivity.
  - intros name email name' email' p dir1.
    assert (Htaken : phoneTaken (Some p) (d_rows dir1) = true).
    { subst dir1. unfold addContact.
      destruct (phoneTaken (Some p) (d_rows dir)) eqn:Htaken; [exact Htaken|].
      cbn [snd d_rows]. rewrite phoneTaken_app. apply orb_true_iff. right.
      apply phoneTaken_self. reflexivity. }
    unfold addContact at 1. rewrite Htaken. reflexivity.
Qed.

Lemma phone_numbers_stay_distinct_witness :
  phonesUnique
    (d_rows (snd (importContacts
                    [mkCsvRow (Some "Zoe") (Some "+1555") None;
                     mkCsvRow (Some "Max") None None;
                     mkCsvRow None None (Some "x@example.org")]
                    (mkDirectory [ana; leo; eva] 3)))) /\
  List.length
    (d_rows (snd (importContacts
                    [mkCsvRow (Some "Zoe") (Some "+1555") None;
                     mkCsvRow (Some "Max") None None;
                     mkCsvRow None None (Some "x@example.org")]
                    (mkDirectory [ana; leo; eva] 3)))) = 4%nat.
Proof.
  split; [|reflexivity].
  apply (phone_numbers_stay_distinct (mkDirectory [ana; leo; eva] 3)).
  cbn. repeat split.
Defined.

(** X17. The import answers with the number of records of the file, which
    is at least the number of contacts it adds: a record whose phone
    number is taken, also by an earlier record of the same file, adds
    nothing.  Every record, added or not, uses up one id of the counter.
    The old contacts stay; every added contact has a name, a phone number
    and an email that are not [NULL] and an id of its own above the old
    counter.  Importing the same file a second time adds no contact and
    uses up as many ids again. *)
Theorem second_import_adds_nothing :
  forall rows dir,
    fst (importContacts rows dir) = List.length rows /\
    d_seq (snd (importContacts rows dir))
    = d_seq dir + Z.of_nat (List.length rows) /\
    (exists added,
       d_rows (snd (importContacts rows dir)) = (d_rows dir ++ added)%list /\
       (List.length added <= List.length rows)%nat /\
       Forall (fun c => c_name c <> None /\ c_phone c <> None /\
                        c_email c <> None /\
                        d_seq dir < c_id c
                        <= d_seq dir + Z.of_nat (List.length rows)) added /\
       NoDup (map c_id added)) /\
    d_rows (snd (importContacts rows (snd (importContacts rows dir))))
    = d_rows (snd (importContacts rows dir)) /\
    d_seq (snd (importContacts rows (snd (importContacts rows dir))))
    = d_seq dir + 2 * Z.of_nat (List.length rows).
Proof.
  intros rows dir. cbn [importContacts fst snd].
  destruct (import_grows rows dir) as (Hseq & Hadded).
  destruct (import_grows rows (fold_left insertOrIgnore rows dir))
    as (Hseq2 & _).
  split; [reflexivity|]. split; [exact Hseq|]. split; [exact Hadded|]. split.
  - apply import_of_taken. intros row Hin. apply import_takes, Hin.
  - rewrite Hseq2, Hseq. lia.
Qed.

Lemma update_of_other_rows id name phone email (l : list Contact) :
  ~ In id (map c_id l) ->
  map (updatedRow id name phone email) l = l /\
  filter (fun c => negb (c_id c =? id)) l = l /\
  existsb (fun c => c_id c =? id) l = false.
Proof.
  induction l as [|a l IH]; intros Hout; [repeat split|].
  cbn [map In] in Hout.
  assert (Ha : (c_id a =? id) = false) by (apply Z.eqb_neq; tauto).
  destruct IH as (Hmap & Hfilter & Hex); [tauto|].
  cbn [map filter existsb]. unfold updatedRow at 1.
  rewrite Ha, Hmap, Hfilter, Hex. repeat split.
Qed.

Lemma phoneTaken_updated q id name phone email (l : list Contact) :
  phoneTaken q l = false ->
  phoneTaken q [mkContact id name phone email] = false ->
  phoneTaken q (map (updatedRow id name phone email) l) = false.
Proof.
  intros Hl Hnew. induction l as [|a l IH]; [exact Hl|].
  change (a :: l) with ([a] ++ l)%list in Hl.
  rewrite phoneTaken_app in Hl. apply orb_false_iff in Hl as (Ha & Hl).
  cbn [map].
  change (?x :: ?r) with ([x] ++ r)%list.
  rewrite phoneTaken_app, (IH Hl), orb_false_r.
  unfold updatedRow. destruct (c_id a =? id) eqn:Hid; [|exact Ha].
  apply Z.eqb_eq in Hid. rewrite Hid. exact Hnew.
Qed.

Lemma update_unique id name phone email (l : list Contact) :
  NoDup (map c_id l) -> phonesUnique l ->
  phoneTaken phone (filter (fun c => negb (c_id c =? id)) l) = false ->
  phonesUnique (map (updatedRow id name phone email) l).
Proof.
  induction l as [|a l IH]; intros Hids Hl Hfree; [exact I|].
  cbn [map] in Hids. apply NoDup_cons_iff in Hids as (Hout & Hids).
  destruct Hl as (Ha & Hl). cbn [map filter] in Hfree |- *.
  unfold updatedRow at 1. destruct (c_id a =? id) eqn:Hid.
  - apply Z.eqb_eq in Hid. rewrite Hid in Hout. cbn [negb] in Hfree.
    destruct (update_of_other_rows id name phone email l Hout)
      as (Hmap & Hfilter & _).
    rewrite Hmap. rewrite Hfilter in Hfree. split; assumption.
  - cbn [negb] in Hfree.
    change (a :: ?r) with ([a] ++ r)%list in Hfree.
    rewrite phoneTaken_app in Hfree.
    apply orb_false_iff in Hfree as (Hphone & Hfree).
    split; [|apply IH; assumption].
    apply phoneTaken_updated; [exact Ha|].
    rewrite phoneTaken_one_sym. exact Hphone.
Qed.

(** X18. An update of a contact keeps the ids and the number of the
    contacts and keeps the phone numbers distinct.  It is refused, and
    leaves the table as it was, exactly when a contact has the id and
    another contact has the new phone number; for an id that no contact
    has it answers success and changes nothing. *)
Theorem update_keeps_phones_distinct :
  forall id name phone email dir,
    NoDup (map c_id (d_rows dir)) ->
    phonesUnique (d_rows dir) ->
    let dir' := snd (updateContact id name phone email dir) in
    phonesUnique (d_rows dir') /\
    map c_id (d_rows dir') = map c_id (d_rows dir) /\
    d_seq dir' = d_seq dir /\
    (fst (updateContact id name phone email dir) = RError uniqueFailed ->
     dir' = dir /\
     exists c other,
       In c (d_rows dir) /\ c_id c = id /\
       In other (d_rows dir) /\ c_id other <> id /\
       c_phone other = phone /\ phone <> None) /\
    (~ In id (map c_id (d_rows dir)) ->
     updateContact id name phone email dir = (RSuccess, dir)).
Proof.
  intros id name phone email dir Hids Hdir dir'. subst dir'.
  unfold updateContact.
  destruct (existsb (fun c => c_id c =? id) (d_rows dir)) eqn:Hex;
    cbn [andb].
  - destruct (phoneTaken phone
                (filter (fun c => negb (c_id c =? id)) (d_rows dir)))
      eqn:Htaken; cbn [fst snd d_rows d_seq].
    + split; [exact Hdir|]. split; [reflexivity|]. split; [reflexivity|].
      split.
      * intros _. split; [reflexivity|].
        apply existsb_exists in Hex as (c & Hc & Hcid).
        apply Z.eqb_eq in Hcid.
        destruct phone as [p|]; [|discriminate Htaken].
        cbn in Htaken. apply existsb_exists in Htaken as (o & Ho & Hop).
        apply filter_In in Ho as (Ho & Hoid).
        apply negb_true_iff, Z.eqb_neq in Hoid.
        exists c, o. repeat split; try assumption; [|discriminate].
        unfold samePhone in Hop. destruct (c_phone o) as [q|];
          [|discriminate Hop].
        apply String.eqb_eq in Hop. congruence.
      * intros Hout. exfalso.
        apply existsb_exists in Hex as (c & Hc & Hcid).
        apply Z.eqb_eq in Hcid. apply Hout. rewrite <- Hcid.
        apply in_map, Hc.
    + split; [apply update_unique; assumption|].
      split.
      { rewrite map_map. apply map_ext. intros c. unfold updatedRow.
        destruct (c_id c =? id); reflexivity. }
      split; [reflexivity|]. split; [discriminate|].
      intros Hout. exfalso.
      apply existsb_exists in Hex as (c & Hc & Hcid).
      apply Z.eqb_eq in Hcid. apply Hout. rewrite <- Hcid.
      apply in_map, Hc.
  - cbn [fst snd d_rows d_seq].
    assert (Hout : ~ In id (map c_id (d_rows dir))).
    { intros Hin. apply in_map_iff in Hin as (c & Hcid & Hc).
      assert (Htrue : existsb (fun c => c_id c =? id) (d_rows dir) = true)
        by (apply existsb_exists; exists c; split;
            [exact Hc | apply Z.eqb_eq, Hcid]).
      congruence. }
    destruct (update_of_other_rows id name phone email (d_rows dir) Hout)
      as (Hmap & _ & _).
    rewrite Hmap. split; [exact Hdir|]. split; [reflexivity|].
    split; [reflexivity|]. split; [discriminate|].
    intros _. destruct dir; reflexivity.
Qed.

Lemma update_keeps_phones_distinct_witness :
  fst (updateContact 2 (Some "Leo") (Some "+1555") None
         (mkDirectory [ana; leo; eva] 3)) = RError uniqueFailed /\
  snd (updateContact 2 (Some "Leo") (Some "+1555") None
         (mkDirectory [ana; leo; eva] 3)) = mkDirectory [ana; leo; eva] 3 /\
  phonesUnique
    (d_rows (snd (updateContact 2 (Some "Leonard") (Some "+1556") None
                    (mkDirectory [ana; leo; eva] 3)))).
Proof.
  split; [reflexivity|]. split; [reflexivity|].
  apply (update_keeps_phones_distinct 2 (Some "Leonard") (Some "+1556") None
           (mkDirectory [ana; leo; eva] 3)).
  - cbn. repeat constructor; cbn; intuition discriminate.
  - cbn. repeat split.
Defined.

Lemma results_balanced_witness :
  Forall balancedResult
    (results (run sampleWorld
                [Create greeting; Start 1; Proceed 0 delivers;
                 Proceed 0 rejects; Proceed 0 delivers])) /\
  List.length
    (results (run sampleWorld
                [Create greeting; Start 1; Proceed 0 delivers;
                 Proceed 0 rejects; Proceed 0 delivers])) = 1%nat.
Proof.
  split; [|reflexivity].
  apply (results_balanced
           [Create greeting; Start 1; Proceed 0 delivers;
            Proceed 0 rejects; Proceed 0 delivers] sampleWorld);
    constructor.
Defined.

Lemma uninterrupted_pass_witness :
  List.length (selectPending 1 (db sampleCreated)) = 2%nat /\
  db (run sampleCreated
        [Start 1; Proceed 0 delivers; Proceed 0 rejects; Proceed 0 delivers])
  = db (snd (sendBulkMessages 1 [delivers; rejects]
               (with_db (updateStatus running 1 (db sampleCreated))
                  sampleCreated))).
Proof.
  split; [reflexivity|].
  exact (proj1 (uninterrupted_pass 1 [delivers; rejects] delivers
                  sampleCreated eq_refl)).
Defined.
